(** * w3-hyperlocal: event lifecycle and participation aggregation

    A shallow embedding of the event code of the repository:
    - [app/jobs/event_status_updater.py]  ([EventStatusUpdater.execute]),
    - [app/app.py]  ([get_destinations], [cancel_destination],
      [participate_event]),
    together with the part of Python and of the Supabase client these
    functions rely on.

    Rows are JSON objects, modelled as finite maps from column names to
    Python scalars.  Exceptions are explicit: pure code lives in the
    [res] monad, code that talks to the store in the state-and-exception
    monad [M] over a [World] (the tables and a schedule of outages). *)

From Stdlib Require Import ZArith String Ascii List Lia Permutation.
From stdpp Require Import gmap strings list fin_maps.

Local Open Scope string_scope.
Local Open Scope list_scope.
Local Open Scope Z_scope.

(** ** Python values and exceptions *)

Module Py.

(** The JSON scalars the code inspects. *)
Inductive pyval :=
| PyNone
| PyBool (b : bool)
| PyInt (z : Z)
| PyStr (s : string).

(** Which argument a [ValueError] complains about. *)
Inductive malformed := BadDate | BadTime.

Inductive exn :=
| KeyError (k : string)
| TypeError
| AttributeError
| IndexError
| OverflowError
| ValueError (what : malformed)
| APIError.

(** The two malformed-input errors of the specification are the
    [ValueError]s raised while parsing a date or a time. *)
Definition MalformedDateError : exn := ValueError BadDate.
Definition MalformedTimeError : exn := ValueError BadTime.

Inductive res (A : Type) :=
| Ok (a : A)
| Raise (e : exn).
Arguments Ok {A} a.
Arguments Raise {A} e.

Definition res_bind {A B} (c : res A) (k : A -> res B) : res B :=
  match c with
  | Ok a => k a
  | Raise e => Raise e
  end.

Definition is_ok {A} (c : res A) : bool :=
  match c with Ok _ => true | Raise _ => false end.

(** [bool(v)] *)
Definition truthy (v : pyval) : bool :=
  match v with
  | PyNone => false
  | PyBool b => b
  | PyInt z => negb (z =? 0)
  | PyStr s => negb (String.eqb s "")
  end.

Definition int_of_bool (b : bool) : Z := if b then 1 else 0.

(** [a == b]; a [bool] is an [int] in Python, so [True == 1]. *)
Definition py_eq (a b : pyval) : bool :=
  match a, b with
  | PyNone, PyNone => true
  | PyBool x, PyBool y => Bool.eqb x y
  | PyBool x, PyInt y => int_of_bool x =? y
  | PyInt x, PyBool y => x =? int_of_bool y
  | PyInt x, PyInt y => x =? y
  | PyStr x, PyStr y => String.eqb x y
  | _, _ => false
  end.

(** Two values are [==] when they agree once a [bool] is read as the
    number it is. *)
Definition norm (v : pyval) : pyval :=
  match v with
  | PyBool b => PyInt (int_of_bool b)
  | _ => v
  end.

(** [a < b]: defined between numbers and between strings (code point
    order), a [TypeError] otherwise, in particular whenever [None] is
    involved. *)
Definition py_lt (a b : pyval) : res bool :=
  match a, b with
  | PyBool x, PyBool y => Ok (int_of_bool x <? int_of_bool y)
  | PyBool x, PyInt y => Ok (int_of_bool x <? y)
  | PyInt x, PyBool y => Ok (x <? int_of_bool y)
  | PyInt x, PyInt y => Ok (x <? y)
  | PyStr x, PyStr y => Ok (String.ltb x y)
  | _, _ => Raise TypeError
  end.

(** [(a1, a2) < (b1, b2)]: the first components that differ under [==]
    decide, with [<]. *)
Definition tuple_lt (a b : pyval * pyval) : res bool :=
  if negb (py_eq a.1 b.1) then py_lt a.1 b.1
  else if negb (py_eq a.2 b.2) then py_lt a.2 b.2
  else Ok false.

(** [a or b] *)
Definition py_or (a b : pyval) : pyval := if truthy a then a else b.

(** [d[k]] and [d.get(k, default)] on a JSON object. *)
Definition getitem (d : gmap string pyval) (k : string) : res pyval :=
  match d !! k with
  | Some v => Ok v
  | None => Raise (KeyError k)
  end.

Definition dict_get (d : gmap string pyval) (k : string) (default : pyval) : pyval :=
  match d !! k with
  | Some v => v
  | None => default
  end.

(** [v in l] *)
Definition py_in (v : pyval) (l : list pyval) : bool :=
  existsb (py_eq v) l.

(** *** A [dict] keyed by scalars, in insertion order *)

Definition odict (V : Type) := list (pyval * V).

Fixpoint dict_mem {V} (k : pyval) (d : odict V) : bool :=
  match d with
  | [] => false
  | (k', _) :: d' => py_eq k' k || dict_mem k d'
  end.

(** [d[k] = v]: an existing key keeps its position. *)
Fixpoint dict_set {V} (k : pyval) (v : V) (d : odict V) : odict V :=
  match d with
  | [] => [(k, v)]
  | (k', v') :: d' =>
      if py_eq k' k then (k', v) :: d' else (k', v') :: dict_set k v d'
  end.

Definition dict_values {V} (d : odict V) : list V := snd <$> d.

(** *** [str.split(sep)] with a one-character separator *)

Fixpoint split_on (sep : ascii) (s : string) : list string :=
  match s with
  | EmptyString => [EmptyString]
  | String c s' =>
      if Ascii.eqb c sep then EmptyString :: split_on sep s'
      else match split_on sep s' with
           | [] => [String c EmptyString]
           | w :: ws => String c w :: ws
           end
  end.

(** *** [int(s)] for a [str] in base 10

    Surrounding white space (tab, line feed, vertical tab, form feed,
    carriage return, space) is dropped, one sign is allowed, and the
    digits may be grouped by single underscores; more than 4300 digits
    are refused (the default of [sys.get_int_max_str_digits()]).  This is
    [int] on a [str] of ASCII characters: the statements that depend on
    it are made for such strings. *)

Definition is_space (c : ascii) : bool :=
  let n := nat_of_ascii c in
  ((9 <=? n)%nat && (n <=? 13)%nat) || (n =? 32)%nat.

Definition is_digit (c : ascii) : bool :=
  let n := nat_of_ascii c in (48 <=? n)%nat && (n <=? 57)%nat.

Definition digit_val (c : ascii) : Z := Z.of_nat (nat_of_ascii c) - 48.

Fixpoint drop_spaces (cs : list ascii) : list ascii :=
  match cs with
  | c :: cs' => if is_space c then drop_spaces cs' else cs
  | [] => []
  end.

Definition strip (cs : list ascii) : list ascii :=
  rev (drop_spaces (rev (drop_spaces cs))).

Fixpoint grouped_digits (acc : Z) (after_digit : bool) (cs : list ascii)
  : option Z :=
  match cs with
  | [] => if after_digit then Some acc else None
  | c :: cs' =>
      if is_digit c then grouped_digits (10 * acc + digit_val c) true cs'
      else if Ascii.eqb c "_" && after_digit then grouped_digits acc false cs'
      else None
  end.

Fixpoint count_digits (cs : list ascii) : nat :=
  match cs with
  | [] => 0
  | c :: cs' => if is_digit c then S (count_digits cs') else count_digits cs'
  end.

Definition max_str_digits : nat := 4300.

Definition int_literal (s : string) : option Z :=
  let cs := strip (list_ascii_of_string s) in
  if (count_digits cs <=? max_str_digits)%nat then
    match cs with
    | "+"%char :: cs' => grouped_digits 0 false cs'
    | "-"%char :: cs' => Z.opp <$> grouped_digits 0 false cs'
    | _ => grouped_digits 0 false cs
    end
  else None.

(** The strings for which [int_literal] is [int]. *)
Definition is_ascii (s : string) : bool :=
  forallb (fun c => (nat_of_ascii c <? 128)%nat) (list_ascii_of_string s).

Definition int (what : malformed) (s : string) : res Z :=
  match int_literal s with
  | Some z => Ok z
  | None => Raise (ValueError what)
  end.

(** *** [list.sort(key=...)]

    A stable comparison sort on precomputed keys that lets the first
    exception of [<] escape; here by insertion, each new element being
    compared (as the left operand) with the elements already placed. *)

Section Sort.
Context {A K : Type} (lt : K -> K -> res bool) (key : A -> K).

Fixpoint insert_sorted (x : A) (l : list A) : res (list A) :=
  match l with
  | [] => Ok [x]
  | y :: l' =>
      res_bind (lt (key x) (key y)) (fun b =>
        if b then Ok (x :: y :: l')
        else res_bind (insert_sorted x l') (fun r => Ok (y :: r)))
  end.

Fixpoint sort_into (acc : list A) (l : list A) : res (list A) :=
  match l with
  | [] => Ok acc
  | x :: l' => res_bind (insert_sorted x acc) (fun acc' => sort_into acc' l')
  end.

Definition list_sort (l : list A) : res (list A) := sort_into [] l.
End Sort.

End Py.

Export Py.

Notation "'let?' x := c 'in' k" := (res_bind c (fun x => k))
  (at level 10, x name, c at level 100, k at level 200).

Abbreviation row := (gmap string pyval).

(** ** The [datetime] module *)

Module Datetime.

(** A naive [datetime]; [date] and [time] are its two halves. *)
Record date := mkdate { year : Z; month : Z; day : Z }.
Record time := mktime { hour : Z; minute : Z; second : Z; microsecond : Z }.
Record datetime := combine { dt_date : date; dt_time : time }.

Definition is_leap (y : Z) : bool :=
  ((y mod 4 =? 0) && negb (y mod 100 =? 0)) || (y mod 400 =? 0).

Definition days_in_month (y m : Z) : Z :=
  if m =? 2 then (if is_leap y then 29 else 28)
  else if (m =? 4) || (m =? 6) || (m =? 9) || (m =? 11) then 30
  else 31.

(** [date(y, m, d)] raises [ValueError] outside the calendar. *)
Definition valid_date (y m d : Z) : bool :=
  (1 <=? y) && (y <=? 9999) && (1 <=? m) && (m <=? 12)
  && (1 <=? d) && (d <=? days_in_month y m).

(** [time(h, m, s)] raises [OverflowError] for an argument that is not a
    C [int], and [ValueError] for one that is but lies outside the clock. *)
Definition valid_time (h m s : Z) : bool :=
  (0 <=? h) && (h <? 24) && (0 <=? m) && (m <? 60) && (0 <=? s) && (s <? 60).

Definition c_int (z : Z) : bool := (-2147483648 <=? z) && (z <=? 2147483647).

Definition time_of (h m s : Z) : res time :=
  if c_int h && c_int m && c_int s then
    if valid_time h m s then Ok (mktime h m s 0) else Raise MalformedTimeError
  else Raise OverflowError.

(** [datetime.min.time()] *)
Definition midnight : time := mktime 0 0 0 0.

(** Naive datetimes compare field by field. *)
Fixpoint lex_lt (a b : list Z) : bool :=
  match a, b with
  | x :: a', y :: b' => (x <? y) || ((x =? y) && lex_lt a' b')
  | _, _ => false
  end.

Definition fields (t : datetime) : list Z :=
  [year (dt_date t); month (dt_date t); day (dt_date t);
   hour (dt_time t); minute (dt_time t); second (dt_time t);
   microsecond (dt_time t)].

Definition dt_lt (a b : datetime) : bool := lex_lt (fields a) (fields b).
Arguments dt_lt : simpl never.

(** *** [strptime]

    The two formats in use are digit fields around one separator.  The
    field patterns of CPython ([%Y]: four digits; [%m %d %H %M %S]: one
    or two digits within the field's range, [%d] also a blank and one
    digit) admit exactly the strings accepted here; a string with text
    left over after the last field is refused. *)

Fixpoint digits (acc : Z) (cs : list ascii) : option Z :=
  match cs with
  | [] => Some acc
  | c :: cs' => if is_digit c then digits (10 * acc + digit_val c) cs' else None
  end.

Definition digit_field (lo hi : nat) (s : string) : option Z :=
  let cs := list_ascii_of_string s in
  if (lo <=? length cs)%nat && (length cs <=? hi)%nat then digits 0 cs else None.

Definition day_field (s : string) : option Z :=
  match s with
  | String " " (String c EmptyString) =>
      if is_digit c && negb (Ascii.eqb c "0") then Some (digit_val c) else None
  | _ => digit_field 1 2 s
  end.

(** [datetime.strptime(s, '%Y-%m-%d').date()] on a [str] *)
Definition parse_date (s : string) : option date :=
  match split_on "-" s with
  | [y; m; d] =>
      y' ← digit_field 4 4 y; m' ← digit_field 1 2 m; d' ← day_field d;
      if valid_date y' m' d' then Some (mkdate y' m' d') else None
  | _ => None
  end.

(** [datetime.strptime(s, '%H:%M:%S').time()] on a [str] *)
Definition parse_time (s : string) : option time :=
  match split_on ":" s with
  | [h; m; sec] =>
      h' ← digit_field 1 2 h; m' ← digit_field 1 2 m; s' ← digit_field 1 2 sec;
      if valid_time h' m' s' then Some (mktime h' m' s' 0) else None
  | _ => None
  end.

(** [strptime] wants a [str]. *)
Definition strptime_date (v : pyval) : res date :=
  match v with
  | PyStr s => match parse_date s with
               | Some d => Ok d
               | None => Raise MalformedDateError
               end
  | _ => Raise TypeError
  end.

Definition strptime_time (v : pyval) : res time :=
  match v with
  | PyStr s => match parse_time s with
               | Some t => Ok t
               | None => Raise MalformedTimeError
               end
  | _ => Raise TypeError
  end.

End Datetime.

Export Datetime.

(** ** The Supabase client

    The three tables, as lists of rows in storage order, and a query
    builder reduced to what the code asks of it.  Every [.execute()]
    takes the next entry of the outage schedule: on [true] the call
    raises before it reads or writes anything, on [false] (or when the
    schedule is exhausted) it is served. *)

Module Supabase.

Record Store := mkStore {
  destinations : list row;
  event_participants : list row;
  users : list row
}.

Record World := mkWorld {
  configured : bool;     (* [supabase is not None] *)
  db : Store;
  outages : list bool
}.

Definition M (A : Type) : Type := World -> res A * World.

Definition ret {A} (a : A) : M A := fun w => (Ok a, w).

Definition bind {A B} (c : M A) (k : A -> M B) : M B := fun w =>
  match c w with
  | (Ok a, w') => k a w'
  | (Raise e, w') => (Raise e, w')
  end.

Definition lift {A} (c : res A) : M A := fun w => (c, w).

(** [try: return c  except Exception as e: return h e] *)
Definition try_except {A} (c : M A) (h : exn -> A) : World -> A * World := fun w =>
  match c w with
  | (Ok a, w') => (a, w')
  | (Raise e, w') => (h e, w')
  end.

(** [for x in l: s = f s x] *)
Fixpoint for_each {A S} (f : S -> A -> M S) (l : list A) (s : S) : M S :=
  match l with
  | [] => ret s
  | x :: l' => bind (f s x) (for_each f l')
  end.

Fixpoint res_fold {A S} (f : S -> A -> res S) (l : list A) (s : S) : res S :=
  match l with
  | [] => Ok s
  | x :: l' => res_bind (f s x) (res_fold f l')
  end.

Fixpoint res_map {A B} (f : A -> res B) (l : list A) : res (list B) :=
  match l with
  | [] => Ok []
  | x :: l' => res_bind (f x) (fun y => res_bind (res_map f l') (fun ys => Ok (y :: ys)))
  end.

Inductive table := Destinations | EventParticipants | Users.

Definition rows_of (t : table) (s : Store) : list row :=
  match t with
  | Destinations => destinations s
  | EventParticipants => event_participants s
  | Users => users s
  end.

Definition with_rows (t : table) (rs : list row) (s : Store) : Store :=
  match t with
  | Destinations => mkStore rs (event_participants s) (users s)
  | EventParticipants => mkStore (destinations s) rs (users s)
  | Users => mkStore (destinations s) (event_participants s) rs
  end.

(** [.eq(col, v)] and [.in_(col, vs)] *)
Inductive cond :=
| Eq (col : string) (v : pyval)
| In_ (col : string) (vs : list pyval).

(** SQL equality: a [NULL] equals nothing. *)
Definition sql_eq (a b : pyval) : bool :=
  match a with
  | PyNone => false
  | _ => py_eq a b
  end.

Definition holds (c : cond) (r : row) : bool :=
  match c with
  | Eq col v => match r !! col with Some x => sql_eq x v | None => false end
  | In_ col vs => match r !! col with Some x => existsb (sql_eq x) vs | None => false end
  end.

Definition matches (cs : list cond) (r : row) : bool := forallb (fun c => holds c r) cs.

(** [.select('*')] or [.select('a, b')] *)
Inductive columns := All | Cols (cs : list string).

Definition project (cols : columns) (r : row) : row :=
  match cols with
  | All => r
  | Cols cs => filter (fun kv => kv.1 ∈ cs) r
  end.

(** One round trip to the store: what [.execute()] does. *)
Definition round_trip {A} (f : Store -> A * Store) : M A := fun w =>
  if hd false (outages w)
  then (Raise APIError, mkWorld (configured w) (db w) (tl (outages w)))
  else let (a, s) := f (db w) in
       (Ok a, mkWorld (configured w) s (tl (outages w))).

(** [table(t).select(cols)...execute().data] *)
Definition select (t : table) (cols : columns) (cs : list cond) : M (list row) :=
  round_trip (fun s => (project cols <$> filter (matches cs) (rows_of t s), s)).

(** [table(t).update(changes)...execute().data]: the changed rows *)
Definition update (t : table) (changes : row) (cs : list cond) : M (list row) :=
  round_trip (fun s =>
    let change r := if matches cs r then changes ∪ r else r in
    ((fun r => changes ∪ r) <$> filter (matches cs) (rows_of t s),
     with_rows t (change <$> rows_of t s) s)).

(** [table(t).insert(r).execute().data] *)
Definition insert (t : table) (r : row) : M (list row) :=
  round_trip (fun s => ([r], with_rows t (rows_of t s ++ [r]) s)).

End Supabase.

Export Supabase.

Notation "'do' x <- c ; k" := (bind c (fun x => k))
  (at level 10, x name, c at level 100, k at level 200).

(** ** [app/jobs/event_status_updater.py] *)

Module EventStatusUpdater.

Inductive message :=
| ClientNotAvailable
| NoActiveEvents
| UpdatedEvents (n : nat)
| ErrorUpdating (e : exn).

(** The result dictionary; a key that is not set is [None]. *)
Record job_result := mkResult {
  success : bool;
  msg : message;
  data_checked : option nat;
  data_updated : option nat;
  error : option exn
}.

Inductive decision := NoChange | TransitionToPast.

(** [l[i]] *)
Definition item (l : list string) (i : nat) : res string :=
  match l !! i with
  | Some x => Ok x
  | None => Raise IndexError
  end.

(** Lines 60-73: the instant an event is compared at. *)
Definition event_datetime (scheduled_date scheduled_time : pyval) : res datetime :=
  if truthy scheduled_time then
    match scheduled_time with
    | PyStr s =>
        let time_parts := split_on ":" s in
        let? p0 := item time_parts 0 in
        let? hour := int BadTime p0 in
        let? minute := (if (1 <? length time_parts)%nat
                        then let? p1 := item time_parts 1 in int BadTime p1
                        else Ok 0) in
        let? second := (if (2 <? length time_parts)%nat
                        then let? p2 := item time_parts 2 in int BadTime p2
                        else Ok 0) in
        let? d := strptime_date scheduled_date in
        let? t := time_of hour minute second in
        Ok (combine d t)
    | _ => Raise AttributeError
    end
  else
    let? event_date := strptime_date scheduled_date in
    Ok (combine event_date (mktime 23 59 59 0)).

(** Lines 47-76: what the loop decides for one event. *)
Definition evaluate (now : datetime) (event : row) : res decision :=
  if py_eq (dict_get event "status" PyNone) (PyStr "cancelled") then Ok NoChange
  else
    let scheduled_date := dict_get event "scheduled_date" PyNone in
    if negb (truthy scheduled_date) then Ok NoChange
    else
      let scheduled_time := dict_get event "scheduled_time" PyNone in
      let? at_ := event_datetime scheduled_date scheduled_time in
      if dt_lt at_ now then Ok TransitionToPast else Ok NoChange.

(** Lines 46-83: one turn of the loop. *)
Definition check_event (now : datetime) (updated_count : nat) (event : row) : M nat :=
  do d <- lift (evaluate now event);
  match d with
  | NoChange => ret updated_count
  | TransitionToPast =>
      do id <- lift (getitem event "id");
      do update_response <-
        update Destinations {["status" := PyStr "past"]} [Eq "id" id];
      ret (match update_response with
           | [] => updated_count
           | _ => S updated_count
           end)
  end.

(** Lines 31-33 *)
Definition sweep_columns : columns :=
  Cols ["id"; "scheduled_date"; "scheduled_time"; "status"].

Definition active_events : M (list row) :=
  select Destinations sweep_columns [Eq "status" (PyStr "active")].

Definition sweep (now : datetime) : M job_result :=
  do events <- active_events;
  match events with
  | [] => ret (mkResult true NoActiveEvents None (Some 0%nat) None)
  | _ =>
      do updated_count <- for_each (check_event now) events 0%nat;
      ret (mkResult true (UpdatedEvents updated_count)
                    (Some (length events)) (Some updated_count) None)
  end.

Definition execute (now : datetime) : World -> job_result * World := fun w =>
  if negb (configured w)
  then (mkResult false ClientNotAvailable None None None, w)
  else try_except (sweep now)
         (fun e => mkResult false (ErrorUpdating e) None None (Some e)) w.

End EventStatusUpdater.

(** ** [app/app.py] *)

Module App.

(** What [jsonify] is given. *)
Inductive body :=
| Error (text : string)
| Exception (e : exn)            (* [{'error': str(e)}] *)
| Rows (rs : list row)
| Object (r : row).

Record response := mkResponse { code : Z; json : body }.

(** *** [get_destinations] *)

(** Lines 212-213 *)
Definition add_created (all_destinations : odict row) (dest : row)
  : res (odict row) :=
  let? id := getitem dest "id" in
  Ok (dict_set id (<["is_organizer" := PyBool true]> dest) all_destinations).

(** [next((p for p in participants if p['event_id'] == id), None)] *)
Fixpoint find_participation (id : pyval) (participants : list row)
  : res (option row) :=
  match participants with
  | [] => Ok None
  | p :: ps =>
      let? e := getitem p "event_id" in
      if py_eq e id then Ok (Some p) else find_participation id ps
  end.

(** Lines 215-223 *)
Definition add_participated (participants : list row)
    (all_destinations : odict row) (dest : row) : res (odict row) :=
  let? id := getitem dest "id" in
  if negb (dict_mem id all_destinations) then
    let? part := find_participation id participants in
    let? participation_type :=
      match part with
      | Some p => if bool_decide (p = ∅) then Ok PyNone
                  else getitem p "participation_type"
      | None => Ok PyNone
      end in
    Ok (dict_set id
          (<["participation_type" := participation_type]>
             (<["is_organizer" := PyBool false]> dest))
          all_destinations)
  else Ok all_destinations.

(** Lines 227-230 *)
Definition add_organizer_name (dest : row) : M row :=
  if truthy (dict_get dest "user_id" PyNone) then
    do uid <- lift (getitem dest "user_id");
    do organizer <- select Users (Cols ["name"; "email"]) [Eq "id" uid];
    match organizer with
    | [] => ret dest
    | u :: _ =>
        ret (<["organizer_name" :=
                 py_or (dict_get u "name" PyNone) (dict_get u "email" PyNone)]> dest)
    end
  else ret dest.

Fixpoint add_organizer_names (all_destinations : odict row) : M (odict row) :=
  match all_destinations with
  | [] => ret []
  | (dest_id, dest) :: rest =>
      do dest' <- add_organizer_name dest;
      do rest' <- add_organizer_names rest;
      ret ((dest_id, dest') :: rest')
  end.

(** Line 234 *)
Definition sort_key (x : row) : pyval * pyval :=
  (dict_get x "scheduled_date" (PyStr ""), dict_get x "scheduled_time" (PyStr "")).

(** Lines 195-236: the body of the [try]. *)
Definition aggregate (user_id : pyval) : M (list row) :=
  do created <- select Destinations All [Eq "user_id" user_id];
  do participants <- select EventParticipants (Cols ["event_id"]) [Eq "user_id" user_id];
  do event_ids <- lift (res_map (fun p => getitem p "event_id") participants);
  do participant_destinations <-
    (match event_ids with
     | [] => ret []
     | _ => select Destinations All [In_ "id" event_ids]
     end);
  do owned <- lift (res_fold add_created created []);
  do merged <- lift (res_fold (add_participated participants)
                              participant_destinations owned);
  do named <- add_organizer_names merged;
  lift (list_sort tuple_lt sort_key (dict_values named)).

(** The route, for a logged-in user: the JSON array it answers. *)
Definition get_destinations (user_id : pyval) : World -> list row * World := fun w =>
  if negb (configured w) then ([], w)
  else try_except (aggregate user_id) (fun _ => []) w.

(** *** [cancel_destination] *)

(** Lines 366-374 *)
Definition scheduled_datetime (destination : row) : res datetime :=
  let? d := getitem destination "scheduled_date" in
  let? scheduled_date := strptime_date d in
  if truthy (dict_get destination "scheduled_time" PyNone) then
    let? t := getitem destination "scheduled_time" in
    let? scheduled_time := strptime_time t in
    Ok (combine scheduled_date scheduled_time)
  else
    Ok (combine scheduled_date midnight).

Definition cancel (destination_id : Z) (session_user_id : pyval) (now : datetime)
  : M response :=
  do dest_response <- select Destinations All [Eq "id" (PyInt destination_id)];
  match dest_response with
  | [] => ret (mkResponse 404 (Error "Destination not found"))
  | destination :: _ =>
      do owner <- lift (getitem destination "user_id");
      if negb (py_eq owner session_user_id)
      then ret (mkResponse 403 (Error "Unauthorized"))
      else if py_eq (dict_get destination "status" PyNone) (PyStr "cancelled")
      then ret (mkResponse 400 (Error "Destination is already cancelled"))
      else
        do at_ <- lift (scheduled_datetime destination);
        if dt_lt at_ now
        then ret (mkResponse 400 (Error "Cannot cancel past events"))
        else
          do response <- update Destinations {["status" := PyStr "cancelled"]}
                                [Eq "id" (PyInt destination_id)];
          ret (mkResponse 200 (Rows response))
  end.

Definition cancel_destination (destination_id : Z) (session_user_id : pyval)
    (now : datetime) : World -> response * World := fun w =>
  if negb (configured w)
  then (mkResponse 500 (Error "Supabase not configured"), w)
  else try_except (cancel destination_id session_user_id now)
         (fun e => mkResponse 500 (Exception e)) w.

(** *** [participate_event] *)

Definition participate (event_id : Z) (user_id : pyval) (data : row) : M response :=
  let participation_type := dict_get data "type" PyNone in
  if negb (py_in participation_type [PyStr "joined"; PyStr "interested"])
  then ret (mkResponse 400 (Error "Invalid participation type"))
  else
    do event_check <- select Destinations (Cols ["id"]) [Eq "id" (PyInt event_id)];
    match event_check with
    | [] => ret (mkResponse 404 (Error "Event not found"))
    | _ =>
        let pair := [Eq "event_id" (PyInt event_id); Eq "user_id" user_id] in
        do existing <- select EventParticipants All pair;
        do response <-
          (match existing with
           | _ :: _ =>
               update EventParticipants
                      {["participation_type" := participation_type]} pair
           | [] =>
               insert EventParticipants
                      (<["event_id" := PyInt event_id]>
                         (<["user_id" := user_id]>
                            {["participation_type" := participation_type]}))
           end);
        ret (mkResponse 200 (Object (hd ∅ response)))
    end.

Definition participate_event (event_id : Z) (user_id : pyval) (data : row)
  : World -> response * World := fun w =>
  if negb (configured w)
  then (mkResponse 500 (Error "Supabase not configured"), w)
  else try_except (participate event_id user_id data)
         (fun e => mkResponse 500 (Exception e)) w.

End App.

(** ** The other routes of [app/app.py] *)

Module Client.

(** [table(t).delete()...execute().data]: the rows taken out *)
Definition delete (t : table) (cs : list cond) : M (list row) :=
  round_trip (fun s =>
    (filter (matches cs) (rows_of t s),
     with_rows t (filter (fun r => negb (matches cs r)) (rows_of t s)) s)).

End Client.

Module Routes.

(** A participation record as [get_destination] sends it, with the
    ['user'] entry it gets when the user is found. *)
Record participant := mkParticipant { record : row; user : option row }.

(** The document of [get_destination]. *)
Record detail := mkDetail {
  destination : row;
  organizer : option row;
  participants : list participant;
  joined : list participant;
  interested : list participant;
  joined_count : nat;
  interested_count : nat
}.

Inductive payload :=
| Message (text : string)                 (* [{'error': text}] *)
| Raised (e : exn)                        (* [{'error': str(e)}] *)
| Data (rows : list row)                  (* [jsonify(response.data)] *)
| Document (r : row)
| Success (deleted : option (list row))   (* [{'success': True}], with ['deleted'] *)
| Details (d : detail).

Record reply := mkReply { status : Z; content : payload }.

Definition not_configured : reply := mkReply 500 (Message "Supabase not configured").

(** *** [save_destination] *)

Definition required_fields : list string :=
  ["place_name"; "latitude"; "longitude"; "scheduled_date"].

(** Lines 297-299: the first required field that is not in the body. *)
Fixpoint first_missing (data : row) (fields : list string) : option string :=
  match fields with
  | [] => None
  | field :: rest =>
      match data !! field with
      | None => Some field
      | Some _ => first_missing data rest
      end
  end.

(** Lines 302-310: the row that is inserted. *)
Definition prepared (user_id : pyval) (data : row) : row :=
  let data1 := <["user_id" := user_id]> data in
  let data2 :=
    match data1 !! "scheduled_time" with
    | Some t => if negb (truthy t) then <["scheduled_time" := PyNone]> data1 else data1
    | None => <["scheduled_time" := PyNone]> data1
    end in
  match data2 !! "status" with
  | Some _ => data2
  | None => <["status" := PyStr "active"]> data2
  end.

Definition save_destination (user_id : pyval) (data : row)
  : World -> reply * World := fun w =>
  if negb (configured w) then (not_configured, w)
  else try_except
         (match first_missing data required_fields with
          | Some field =>
              ret (mkReply 400 (Message ("Missing required field: " ++ field)))
          | None =>
              do response <- insert Destinations (prepared user_id data);
              ret (mkReply 200 (Data response))
          end)
         (fun e => mkReply 500 (Raised e)) w.

(** *** [delete_destination] *)

Definition delete_destination (destination_id : Z) (session_user_id : pyval)
  : World -> reply * World := fun w =>
  if negb (configured w) then (not_configured, w)
  else try_except
         (do dest_response <-
            select Destinations (Cols ["user_id"]) [Eq "id" (PyInt destination_id)];
          match dest_response with
          | [] => ret (mkReply 404 (Message "Destination not found"))
          | first :: _ =>
              do owner <- lift (getitem first "user_id");
              if negb (py_eq owner session_user_id)
              then ret (mkReply 403 (Message "Unauthorized"))
              else
                do response <-
                  Client.delete Destinations [Eq "id" (PyInt destination_id)];
                ret (mkReply 200 (Success (Some response)))
          end)
         (fun e => mkReply 500 (Raised e)) w.

(** *** [unparticipate_event] *)

Definition unparticipate_event (event_id : Z) (user_id : pyval)
  : World -> reply * World := fun w =>
  if negb (configured w) then (not_configured, w)
  else try_except
         (do response <-
            Client.delete EventParticipants
                          [Eq "event_id" (PyInt event_id); Eq "user_id" user_id];
          ret (mkReply 200 (Success None)))
         (fun e => mkReply 500 (Raised e)) w.

(** *** [get_user] *)

Definition get_user (user_id : Z) : World -> reply * World := fun w =>
  if negb (configured w) then (not_configured, w)
  else try_except
         (do user_response <-
            select Users
                   (Cols ["id"; "google_id"; "email"; "name"; "picture_url"; "created_at"])
                   [Eq "id" (PyInt user_id)];
          match user_response with
          | [] => ret (mkReply 404 (Message "User not found"))
          | user :: _ => ret (mkReply 200 (Document (base.delete "google_id" user)))
          end)
         (fun e => mkReply 500 (Raised e)) w.

(** *** [get_destination] *)

(** Lines 256-259 *)
Definition find_organizer (destination : row) : M (option row) :=
  if truthy (dict_get destination "user_id" PyNone) then
    do uid <- lift (getitem destination "user_id");
    do organizer <- select Users (Cols ["name"; "email"; "picture_url"]) [Eq "id" uid];
    ret (head organizer)
  else ret None.

(** Lines 266-269 *)
Fixpoint with_users (participants : list row) : M (list participant) :=
  match participants with
  | [] => ret []
  | p :: rest =>
      do uid <- lift (getitem p "user_id");
      do user_info <-
        select Users (Cols ["id"; "name"; "email"; "picture_url"]) [Eq "id" uid];
      do rest' <- with_users rest;
      ret (mkParticipant p (head user_info) :: rest')
  end.

(** [[p for p in participants if p['participation_type'] == kind]] *)
Fixpoint of_kind (kind : string) (participants : list participant)
  : res (list participant) :=
  match participants with
  | [] => Ok []
  | p :: rest =>
      let? t := getitem (record p) "participation_type" in
      let? rest' := of_kind kind rest in
      Ok (if py_eq t (PyStr kind) then p :: rest' else rest')
  end.

Definition get_destination (destination_id : Z) : World -> reply * World := fun w =>
  if negb (configured w) then (not_configured, w)
  else try_except
         (do dest_response <-
            select Destinations All [Eq "id" (PyInt destination_id)];
          match dest_response with
          | [] => ret (mkReply 404 (Message "Destination not found"))
          | dest :: _ =>
              do who <- find_organizer dest;
              do participants_response <-
                select EventParticipants All [Eq "event_id" (PyInt destination_id)];
              do people <- with_users participants_response;
              do going <- lift (of_kind "joined" people);
              do curious <- lift (of_kind "interested" people);
              ret (mkReply 200
                     (Details (mkDetail dest who people going curious
                                        (length going) (length curious))))
          end)
         (fun e => mkReply 500 (Raised e)) w.

End Routes.

(** ** [app/jobs/base_job.py] *)

Module BaseJob.

(** The fields [run] keeps up to date. *)
Record job := mkJob {
  name : string;
  last_run : option datetime;
  run_count : nat
}.

(** [__init__] *)
Definition init (job_name : string) : job := mkJob job_name None 0.

(** What [run] returns: the result of [execute], or the failure
    dictionary built from the exception that escaped it. *)
Inductive outcome (R : Type) :=
| Returned (result : R)
| Failed (job_name : string) (e : exn).
Arguments Returned {R} result.
Arguments Failed {R} job_name e.

(** [run], for a subclass whose [execute] is given; [clock] is what
    [datetime.now()] answers once [execute] is over. *)
Definition run {R} (execute : M R) (clock : datetime) (self : job) (w : World)
  : outcome R * job * World :=
  match execute w with
  | (Ok result, w') =>
      (Returned result, mkJob (name self) (Some clock) (S (run_count self)), w')
  | (Raise e, w') =>
      (Failed (name self) e, mkJob (name self) (Some clock) (S (run_count self)), w')
  end.

(** [EventStatusUpdater(...).run()]: its [execute] catches everything. *)
Definition run_updater (now clock : datetime) (self : job) (w : World)
  : outcome EventStatusUpdater.job_result * job * World :=
  run (fun w => let (r, w') := EventStatusUpdater.execute now w in (Ok r, w'))
      clock self w.

End BaseJob.

(** ** Sample data *)

Module Sample.

Definition event (id owner : Z) (scheduled_date : string) (scheduled_time : pyval)
    (status : string) : row :=
  <["id" := PyInt id]>
    (<["user_id" := PyInt owner]>
       (<["place_name" := PyStr "Plaza"]>
          (<["scheduled_date" := PyStr scheduled_date]>
             (<["scheduled_time" := scheduled_time]>
                {["status" := PyStr status]})))).

Definition participation (event_id user : Z) (kind : string) : row :=
  <["event_id" := PyInt event_id]>
    (<["user_id" := PyInt user]> {["participation_type" := PyStr kind]}).

Definition user (id : Z) (name : pyval) (email : string) : row :=
  <["id" := PyInt id]> (<["name" := name]> {["email" := PyStr email]}).

Definition people : list row :=
  [user 1 (PyStr "Ana") "ana@example.org"; user 2 PyNone "bo@example.org"].

(** A client that is configured and never fails. *)
Definition reliable (s : Store) : World := mkWorld true s [].

Definition at_ (y mo d h mi s : Z) : datetime :=
  combine (mkdate y mo d) (mktime h mi s 0).

(** An all-day event of user 1 on 2024-06-01. *)
Definition all_day : row := event 1 1 "2024-06-01" PyNone "active".
Definition all_day_store : Store := mkStore [all_day] [] people.

(** The three events of the sort example, all of user 1. *)
Definition sort_store (no_time : pyval) : Store :=
  mkStore [event 3 1 "2024-01-02" (PyStr "00:00:00") "active";
           event 2 1 "2024-01-01" (PyStr "09:00:00") "active";
           event 1 1 "2024-01-01" no_time "active"] [] people.

(** A record with an impossible date stored before an event that is due. *)
Definition bad_date : row := event 1 1 "2024-13-45" PyNone "active".
Definition due : row := event 2 1 "2024-05-31" (PyStr "10:00:00") "active".
Definition bad_then_due : Store := mkStore [bad_date; due] [] people.

(** An event at 10:00:00 sharp. *)
Definition at_ten : row := event 1 1 "2024-06-01" (PyStr "10:00:00") "active".

(** User 2 joined event 1 of user 1. *)
Definition joined_store : Store :=
  mkStore [at_ten] [participation 1 2 "joined"] people.

(** User 1 also joined their own event. *)
Definition own_and_joined : Store :=
  mkStore [at_ten; event 2 1 "2024-06-02" (PyStr "08:30:00") "active"]
          [participation 1 1 "joined"] people.

(** User 1 owns event 1 and has joined it, and has also joined event 3,
    which user 2 owns. *)
Definition busy : Store :=
  mkStore [at_ten; event 3 2 "2024-06-03" (PyStr "18:00:00") "active"]
          [participation 1 1 "joined"; participation 3 1 "joined"] people.

End Sample.

(** ** Predicates of the statements *)

Module Shape.

(** The keys of a [dict] are pairwise different under [==]. *)
Fixpoint distinct_keys {V} (d : odict V) : Prop :=
  match d with
  | [] => True
  | (k, _) :: d' => dict_mem k d' = false /\ distinct_keys d'
  end.

(** Each entry of the merged dictionary is filed under its own id. *)
Definition filed_by_id (d : odict row) : Prop :=
  Forall (fun kv => exists i, kv.2 !! "id" = Some i /\ py_eq kv.1 i = true) d.

(** The rows of [rs] whose id is [==] to [i]. *)
Definition has_id (i : pyval) (rs : list row) : Prop :=
  exists r j, r ∈ rs /\ r !! "id" = Some j /\ py_eq j i = true.

(** The participation records of a user for an event. *)
Definition records_for (event_id : Z) (user_id : pyval) (rs : list row) : list row :=
  filter (matches [Eq "event_id" (PyInt event_id); Eq "user_id" user_id]) rs.

Definition at_most_one_record (rs : list row) : Prop :=
  forall event_id user_id, (length (records_for event_id user_id rs) <= 1)%nat.

(** Participate requests [(event_id, user_id, body)] served one after the
    other. *)
Definition serve_all (requests : list (Z * pyval * row)) (w : World) : World :=
  foldl (fun w q => snd (App.participate_event q.1.1 q.1.2 q.2 w)) w requests.

(** The rows the sweep fetches. *)
Definition active (r : row) : bool := matches [Eq "status" (PyStr "active")] r.

(** [table.update({'status': 'past'}).eq('id', id)] on the rows. *)
Definition expire (id : pyval) (rs : list row) : list row :=
  (fun r => if matches [Eq "id" id] r then {["status" := PyStr "past"]} ∪ r else r)
    <$> rs.

(** An event whose turn in the loop changes neither the table nor the
    count: it is left alone, or it is due but filed under no id. *)
Definition settled (now : datetime) (e : row) : Prop :=
  EventStatusUpdater.evaluate now e = Ok EventStatusUpdater.NoChange
  \/ (EventStatusUpdater.evaluate now e = Ok EventStatusUpdater.TransitionToPast
      /\ e !! "id" = Some PyNone).

(** A row as the sweep may leave it: untouched, or with status [past]. *)
Definition expired_from (r r' : row) : Prop :=
  r' = r \/ r' = {["status" := PyStr "past"]} ∪ r.

(** What a world keeps through a sweep. *)
Definition swept (w w' : World) : Prop :=
  configured w' = configured w
  /\ event_participants (db w') = event_participants (db w)
  /\ users (db w') = users (db w)
  /\ Forall2 expired_from (destinations (db w)) (destinations (db w')).

(** [table.update({'status': 'cancelled'}).eq('id', id)] on the rows. *)
Definition cancel_rows (id : Z) (rs : list row) : list row :=
  (fun r => if matches [Eq "id" (PyInt id)] r
            then {["status" := PyStr "cancelled"]} ∪ r else r) <$> rs.

(** What the claim about duplicates reads off a row. *)
Definition core (r : row) : option pyval * option pyval :=
  (r !! "id", r !! "is_organizer").

End Shape.

(** * Properties *)

Import EventStatusUpdater App.

(** ** C1: cancelling an all-day event *)

(** For a destination without a time, [cancel_destination] compares the
    start of the scheduled day with [now], the sweep the end of it. *)
Lemma all_day_instants (destination : row) (v : pyval) (d : date) :
  truthy (dict_get destination "scheduled_time" PyNone) = false ->
  destination !! "scheduled_date" = Some v ->
  strptime_date v = Ok d ->
  scheduled_datetime destination = Ok (combine d midnight)
  /\ event_datetime (dict_get destination "scheduled_date" PyNone)
                    (dict_get destination "scheduled_time" PyNone)
     = Ok (combine d (mktime 23 59 59 0)).
Proof.
  intros Ht Hv Hd. unfold scheduled_datetime, event_datetime, getitem.
  rewrite Ht. unfold dict_get. rewrite Hv. cbn. rewrite Hd. split; reflexivity.
Qed.

(** C1 (the code departs from the claim): on 2024-06-01 at noon the owner
    of the all-day event of 2024-06-01 is refused with "Cannot cancel
    past events", and nothing is written; the sweep, at the same instant,
    leaves that event alone because its day has not ended. *)
Theorem cancel_all_day_event_refused_during_its_day :
  cancel_destination 1 (PyInt 1) (Sample.at_ 2024 6 1 12 0 0)
                     (Sample.reliable Sample.all_day_store)
  = (mkResponse 400 (Error "Cannot cancel past events"),
     Sample.reliable Sample.all_day_store)
  /\ evaluate (Sample.at_ 2024 6 1 12 0 0) Sample.all_day = Ok NoChange.
Proof. split; vm_compute; reflexivity. Qed.

(** ** C2: the order of the aggregated list *)

(** With the empty string for the missing time the three events come out
    in the order of the specification. *)
Lemma sort_example_with_empty_time :
(fun r : row => r !! "id")
    <$> fst (get_destinations (PyInt 1) (Sample.reliable (Sample.sort_store (PyStr ""))))
  = [Some (PyInt 1); Some (PyInt 2); Some (PyInt 3)].
Proof. vm_compute. reflexivity. Qed.

(** C2 (the code departs from the claim): an all-day event is stored with
    [scheduled_time = None]; the key of the sort then holds [None], the
    comparison with the 09:00:00 event of the same date raises
    [TypeError], and the route answers the empty list instead of the
    three events. *)
Theorem sort_example_with_null_time_is_empty :
  fst (aggregate (PyInt 1) (Sample.reliable (Sample.sort_store PyNone)))
  = Raise TypeError
  /\ fst (get_destinations (PyInt 1) (Sample.reliable (Sample.sort_store PyNone)))
     = [].
Proof. split; vm_compute; reflexivity. Qed.

(** ** Running the monad *)

Lemma for_each_app {A S} (f : S -> A -> M S) (l1 l2 : list A) (s : S) (w : World) :
  for_each f (l1 ++ l2) s w
  = match for_each f l1 s w with
    | (Ok s', w') => for_each f l2 s' w'
    | (Raise e, w') => (Raise e, w')
    end.
Proof.
  revert s w. induction l1 as [|x l1 IH]; intros s w; [reflexivity|].
  cbn. unfold bind. destruct (f s x w) as [[s'|e] w']; [apply IH|reflexivity].
Qed.

(** A read leaves the tables alone, whether it is served or not. *)
Lemma select_db t cols cs w : db (snd (select t cols cs w)) = db w.
Proof. unfold select, round_trip. destruct (hd false (outages w)); reflexivity. Qed.

Lemma select_configured t cols cs w :
  configured (snd (select t cols cs w)) = configured w.
Proof. unfold select, round_trip. destruct (hd false (outages w)); reflexivity. Qed.

(** A write that raises has written nothing. *)
Lemma round_trip_raise {A} (f : Store -> A * Store) w e w' :
  round_trip f w = (Raise e, w') -> db w' = db w.
Proof.
  unfold round_trip. destruct (hd false (outages w)).
  - intros [= _ <-]. reflexivity.
  - destruct (f (db w)). discriminate.
Qed.

(** ** C3: a failing event and the rest of the batch *)

Lemma check_event_raise now n e w ex w' :
  check_event now n e w = (Raise ex, w') -> db w' = db w.
Proof.
  unfold check_event, bind, lift, ret.
  destruct (evaluate now e) as [[|]|x]; try (intros [= _ <-]; reflexivity).
  destruct (getitem e "id") as [id|x]; [|intros [= _ <-]; reflexivity].
  destruct (update _ _ _ w) as [[rs|x] w1] eqn:Hu; [discriminate|].
  intros [= _ <-]. exact (round_trip_raise _ _ _ _ Hu).
Qed.

(** C3 as stated does not hold: it would make every due event of the
    batch [past] after a run, whatever else the batch holds.  With a
    record of impossible date stored first, the run stops there and the
    due event behind it stays [active]. *)
Lemma sweep_bad_record_blocks_batch :
  ~ (forall (now : datetime) (w w0 : World) (events : list row) (e : row),
        configured w = true -> outages w = [] ->
        active_events w = (Ok events, w0) -> e ∈ events ->
        evaluate now e = Ok TransitionToPast ->
        forall r, r ∈ destinations (db (snd (execute now w))) ->
                  r !! "id" = e !! "id" -> r !! "status" = Some (PyStr "past")).
Proof.
  intros H.
  pose (w := Sample.reliable Sample.bad_then_due).
  destruct (active_events w) as [[events|x] w0] eqn:Hev; [|vm_compute in Hev; discriminate].
  assert (Hd : project sweep_columns
                       Sample.due ∈ events).
  { vm_compute in Hev. injection Hev as <- _. right. left. }
  specialize (H (Sample.at_ 2024 6 1 12 0 0) w w0 events _ eq_refl eq_refl Hev Hd
                ltac:(vm_compute; reflexivity) Sample.due).
  assert (Hin : Sample.due ∈ destinations (db (snd (execute (Sample.at_ 2024 6 1 12 0 0) w)))).
  { vm_compute. right. left. }
  specialize (H Hin ltac:(vm_compute; reflexivity)).
  vm_compute in H. discriminate.
Qed.

(** C3, amended: the first event whose turn raises ends the run.  The job
    answers [success = False] with that error; the events before it have
    been handled, the failing turn has written nothing, and no event
    after it is looked at: the store is left as that turn found it. *)
Theorem sweep_aborts_at_first_failure
    (now : datetime) (w w0 w1 w2 : World) (before after : list row) (e : row)
    (n : nat) (ex : exn) :
  configured w = true ->
  active_events w = (Ok (before ++ e :: after), w0) ->
  for_each (check_event now) before 0%nat w0 = (Ok n, w1) ->
  check_event now n e w1 = (Raise ex, w2) ->
  execute now w = (mkResult false (ErrorUpdating ex) None None (Some ex), w2)
  /\ db w2 = db w1.
Proof.
  intros Hc Hev Hpre He. split; [|exact (check_event_raise _ _ _ _ _ _ He)].
  unfold execute, try_except, sweep, bind. rewrite Hc. cbn. rewrite Hev.
  destruct (before ++ e :: after) as [|x l] eqn:Hl.
  { destruct before; discriminate. }
  rewrite <- Hl, for_each_app, Hpre. cbn. unfold bind. rewrite He. reflexivity.
Qed.

Lemma sweep_aborts_at_first_failure_witness :
  execute (Sample.at_ 2024 6 1 12 0 0) (Sample.reliable Sample.bad_then_due)
  = (mkResult false (ErrorUpdating MalformedDateError) None None
              (Some MalformedDateError),
     Sample.reliable Sample.bad_then_due)
  /\ db (Sample.reliable Sample.bad_then_due) = db (Sample.reliable Sample.bad_then_due).
Proof.
  apply (sweep_aborts_at_first_failure
           (Sample.at_ 2024 6 1 12 0 0) (Sample.reliable Sample.bad_then_due)
           (Sample.reliable Sample.bad_then_due) (Sample.reliable Sample.bad_then_due)
           (Sample.reliable Sample.bad_then_due) []
           [project sweep_columns Sample.due]
           (project sweep_columns Sample.bad_date)
           0%nat MalformedDateError).
  - reflexivity.
  - vm_compute. reflexivity.
  - reflexivity.
  - vm_compute. reflexivity.
Defined.

(** ** Instants are totally ordered *)

Lemma lex_lt_irrefl a : lex_lt a a = false.
Proof.
  induction a as [|x a IH]; cbn; [reflexivity|].
  rewrite Z.ltb_irrefl, Z.eqb_refl, IH. reflexivity.
Qed.

Lemma lex_lt_asym a b : lex_lt a b = true -> lex_lt b a = false.
Proof.
  revert b. induction a as [|x a IH]; intros [|y b]; cbn; try discriminate.
  intros H. apply orb_true_iff in H as [H|H].
  - apply Z.ltb_lt in H.
    replace (y <? x) with false by (symmetry; apply Z.ltb_ge; lia).
    replace (y =? x) with false by (symmetry; apply Z.eqb_neq; lia).
    reflexivity.
  - apply andb_true_iff in H as [Hxy H]. apply Z.eqb_eq in Hxy as ->.
    rewrite Z.ltb_irrefl, Z.eqb_refl. cbn. apply IH, H.
Qed.

Lemma lex_lt_total a b :
  length a = length b -> lex_lt a b = false -> lex_lt b a = false -> a = b.
Proof.
  revert b. induction a as [|x a IH]; intros [|y b]; cbn; try discriminate;
    [reflexivity|].
  intros [= Hl] Hab Hba.
  apply orb_false_iff in Hab as [H1 H2], Hba as [H3 H4].
  apply Z.ltb_ge in H1, H3. assert (x = y) as -> by lia.
  rewrite Z.eqb_refl in H2, H4. cbn in H2, H4. f_equal. apply IH; assumption.
Qed.

Lemma dt_lt_irrefl a : dt_lt a a = false.
Proof. apply lex_lt_irrefl. Qed.

Lemma dt_lt_asym a b : dt_lt a b = true -> dt_lt b a = false.
Proof. apply lex_lt_asym. Qed.

Lemma dt_lt_total a b : dt_lt a b = false -> a = b \/ dt_lt b a = true.
Proof.
  intros H. destruct (dt_lt b a) eqn:Hba; [right; reflexivity|left].
  assert (Hf : fields a = fields b) by (apply lex_lt_total; [reflexivity|assumption..]).
  destruct a as [[y m d] [h mi s us]], b as [[y' m' d'] [h' mi' s' us']].
  injection Hf as -> -> -> -> -> -> ->. reflexivity.
Qed.

(** ** Rows, projections and filters *)

Lemma py_eq_refl v : py_eq v v = true.
Proof.
  destruct v as [|b|z|s]; cbn;
    [reflexivity|destruct b; reflexivity|apply Z.eqb_refl|apply String.eqb_refl].
Qed.

Lemma py_eq_str v s : py_eq v (PyStr s) = true -> v = PyStr s.
Proof.
  destruct v as [|b|z|s']; cbn; try discriminate.
  intros H. apply String.eqb_eq in H. congruence.
Qed.

Lemma sql_eq_str v s : sql_eq v (PyStr s) = true -> v = PyStr s.
Proof. destruct v; try discriminate; apply py_eq_str. Qed.

Lemma lookup_project cs (r : row) k :
  project (Cols cs) r !! k = if bool_decide (k ∈ cs) then r !! k else None.
Proof.
  cbn. rewrite map_lookup_filter. destruct (r !! k) as [v|]; cbn.
  - case_bool_decide; [rewrite option_guard_True|rewrite option_guard_False]; done.
  - case_bool_decide; reflexivity.
Qed.

Lemma matches_status (r : row) s :
  matches [Eq "status" (PyStr s)] r = true <-> r !! "status" = Some (PyStr s).
Proof.
  cbn. rewrite andb_true_r. destruct (r !! "status") as [v|]; split; try discriminate.
  - intros H. f_equal. apply sql_eq_str, H.
  - intros [= ->]. cbn. apply String.eqb_refl.
Qed.

Lemma active_events_served w :
  hd false (outages w) = false ->
  active_events w
  = (Ok (project sweep_columns
            <$> filter (matches [Eq "status" (PyStr "active")]) (destinations (db w))),
     mkWorld (configured w) (db w) (tl (outages w))).
Proof. intros H. unfold active_events, select, round_trip. rewrite H. reflexivity. Qed.

Lemma active_events_status w w0 events event :
  active_events w = (Ok events, w0) -> event ∈ events ->
  event !! "status" = Some (PyStr "active").
Proof.
  unfold active_events, select, round_trip.
  destruct (hd false (outages w)); [discriminate|]. intros [= <- _] Hin.
  apply list_elem_of_fmap in Hin as (r & -> & Hr).
  apply list_elem_of_filter in Hr as [Hr _]. apply Is_true_true, matches_status in Hr.
  unfold sweep_columns. rewrite lookup_project. rewrite bool_decide_eq_true_2; [exact Hr|].
  repeat (apply elem_of_cons; (left; reflexivity) || right).
Qed.

(** ** C4: the decision for one event *)

Lemma res_bind_ok {A B} (c : res A) (k : A -> res B) b :
  res_bind c k = Ok b -> exists a, c = Ok a /\ k a = Ok b.
Proof. destruct c as [a|e]; [eauto|discriminate]. Qed.

Lemma event_datetime_date d t at_ :
  event_datetime d t = Ok at_ -> strptime_date d = Ok (dt_date at_).
Proof.
  unfold event_datetime. destruct (truthy t).
  - destruct t as [| | |s]; try discriminate. intros H.
    do 4 (apply res_bind_ok in H as (? & _ & H)).
    apply res_bind_ok in H as (dd & Hd & H).
    apply res_bind_ok in H as (tt & _ & [= <-]). exact Hd.
  - intros H. apply res_bind_ok in H as (dd & Hd & [= <-]). exact Hd.
Qed.

Lemma strptime_date_truthy d dd : strptime_date d = Ok dd -> truthy d = true.
Proof.
  destruct d as [| | |s]; try discriminate.
  destruct s; [discriminate|reflexivity].
Qed.

Lemma evaluate_resolved now event at_ :
  event !! "status" = Some (PyStr "active") ->
  event_datetime (dict_get event "scheduled_date" PyNone)
                 (dict_get event "scheduled_time" PyNone) = Ok at_ ->
  evaluate now event = Ok (if dt_lt at_ now then TransitionToPast else NoChange).
Proof.
  intros Hs Hat. unfold evaluate.
  replace (dict_get event "status" PyNone) with (PyStr "active")
    by (unfold dict_get; rewrite Hs; reflexivity).
  cbn [py_eq]. replace ("active" =? "cancelled")%string with false by reflexivity.
  rewrite (strptime_date_truthy _ _ (event_datetime_date _ _ _ Hat)). cbn [negb].
  rewrite Hat. cbn [res_bind]. destruct (dt_lt at_ now); reflexivity.
Qed.

Lemma update_served t changes cs w :
  hd false (outages w) = false ->
  update t changes cs w
  = (Ok ((fun r => changes ∪ r) <$> filter (matches cs) (rows_of t (db w))),
     mkWorld (configured w)
       (with_rows t ((fun r => if matches cs r then changes ∪ r else r)
                       <$> rows_of t (db w)) (db w))
       (tl (outages w))).
Proof. intros H. unfold update, round_trip. rewrite H. reflexivity. Qed.

(** C4 as stated does not hold: it makes every active event whose instant
    is not greater than [now] a [TransitionToPast].  An event scheduled at
    10:00:00 is left alone at 10:00:00 sharp. *)
Lemma expiry_at_the_scheduled_instant :
  ~ (forall (now : datetime) (event : row) (at_ : datetime),
        event !! "status" = Some (PyStr "active") ->
        event_datetime (dict_get event "scheduled_date" PyNone)
                       (dict_get event "scheduled_time" PyNone) = Ok at_ ->
        (dt_lt now at_ = true -> evaluate now event = Ok NoChange)
        /\ (dt_lt now at_ = false -> evaluate now event = Ok TransitionToPast)).
Proof.
  intros H.
  destruct (H (Sample.at_ 2024 6 1 10 0 0) Sample.at_ten (Sample.at_ 2024 6 1 10 0 0))
    as [_ H2]; [reflexivity|reflexivity|].
  specialize (H2 eq_refl). vm_compute in H2. discriminate.
Qed.

(** C4, amended: the sweep only ever decides about active events (the
    others are not fetched); for a fetched event whose date and time
    resolve to an instant, the decision is [NoChange] when that instant is
    [now] or later, and [TransitionToPast] when it is strictly earlier than
    [now]; the transition sets the status of the rows with the event's id
    to [past]. *)
Theorem expiry_decision
    (now : datetime) (w w0 : World) (events : list row) (event : row)
    (at_ : datetime) :
  active_events w = (Ok events, w0) ->
  event ∈ events ->
  event_datetime (dict_get event "scheduled_date" PyNone)
                 (dict_get event "scheduled_time" PyNone) = Ok at_ ->
  event !! "status" = Some (PyStr "active")
  /\ (at_ = now \/ dt_lt now at_ = true -> evaluate now event = Ok NoChange)
  /\ (dt_lt at_ now = true ->
      evaluate now event = Ok TransitionToPast
      /\ forall (n : nat) (id : pyval) (w1 : World),
          event !! "id" = Some id -> hd false (outages w1) = false ->
          exists n' w2,
            check_event now n event w1 = (Ok n', w2)
            /\ destinations (db w2)
               = (fun r => if matches [Eq "id" id] r
                           then {["status" := PyStr "past"]} ∪ r else r)
                   <$> destinations (db w1)).
Proof.
  intros Hev Hin Hat.
  pose proof (active_events_status _ _ _ _ Hev Hin) as Hs.
  pose proof (evaluate_resolved now _ _ Hs Hat) as He.
  split; [exact Hs|split].
  - intros [->|Hlt].
    + rewrite dt_lt_irrefl in He. exact He.
    + rewrite (dt_lt_asym _ _ Hlt) in He. exact He.
  - intros Hlt. rewrite Hlt in He. split; [exact He|].
    intros n id w1 Hid Ho. unfold check_event, bind, lift, getitem.
    rewrite He, Hid, (update_served _ _ _ _ Ho). cbn. eauto.
Qed.

Lemma expiry_decision_witness :
  evaluate (Sample.at_ 2024 6 2 0 0 0)
           (project sweep_columns Sample.at_ten) = Ok TransitionToPast.
Proof.
  refine (proj1 (proj2 (proj2
    (expiry_decision (Sample.at_ 2024 6 2 0 0 0)
       (Sample.reliable Sample.joined_store) (Sample.reliable Sample.joined_store)
       [project sweep_columns Sample.at_ten] (project sweep_columns Sample.at_ten)
       (Sample.at_ 2024 6 1 10 0 0) _ _ _)) _)).
  - vm_compute. reflexivity.
  - left.
  - vm_compute. reflexivity.
  - reflexivity.
Defined.

(** ** C5: which schedules resolve *)

Lemma split_on_cons sep s : exists p ps, split_on sep s = p :: ps.
Proof.
  induction s as [|c s (p & ps & IH)]; cbn; [eauto|].
  destruct (Ascii.eqb c sep); [eauto|]. rewrite IH. eauto.
Qed.

(** The timed branch of [event_datetime], step by step. *)
Lemma event_datetime_timed (d t : string) :
  t <> "" ->
  event_datetime (PyStr d) (PyStr t)
  = let component (i : nat) : option Z :=
      match split_on ":" t !! i with
      | Some p => int_literal p
      | None => Some 0
      end in
    match component 0%nat, component 1%nat, component 2%nat with
    | Some h, Some m, Some s =>
        match parse_date d with
        | Some dd => let? clock := time_of h m s in Ok (combine dd clock)
        | None => Raise MalformedDateError
        end
    | _, _, _ => Raise MalformedTimeError
    end.
Proof.
  intros Ht. unfold event_datetime.
  replace (truthy (PyStr t)) with true by (destruct t; [contradiction|reflexivity]).
  unfold strptime_date, int, item.
  destruct (split_on_cons ":" t) as (p0 & ps & ->).
  destruct ps as [|p1 [|p2 ps]]; cbn -[int_literal parse_date time_of];
    destruct (int_literal p0) as [h|]; cbn -[int_literal parse_date time_of];
    try reflexivity;
    try (destruct (int_literal p1) as [m|]; cbn -[int_literal parse_date time_of];
         try reflexivity);
    try (destruct (int_literal p2) as [s|]; cbn -[int_literal parse_date time_of];
         try reflexivity);
    destruct (parse_date d) as [dd|]; reflexivity.
Qed.

Lemma valid_time_c_int h m s :
  valid_time h m s = true -> c_int h && c_int m && c_int s = true.
Proof.
  unfold valid_time, c_int. intros H.
  repeat (apply andb_true_iff in H as [H ?]).
  repeat (apply andb_true_iff; split); lia.
Qed.

(** Without a time the sweep resolves to the end of the day. *)
Lemma event_datetime_all_day (d : string) (v : pyval) :
  truthy v = false ->
  event_datetime (PyStr d) v
  = match parse_date d with
    | Some dd => Ok (combine dd (mktime 23 59 59 0))
    | None => Raise MalformedDateError
    end.
Proof.
  intros Hv. unfold event_datetime, strptime_date. rewrite Hv.
  destruct (parse_date d); reflexivity.
Qed.

(** C5 as stated does not hold: a time of one component resolves, text
    after the third component is never read, and two numeric components
    do not resolve when they are off the clock. *)
Lemma one_component_time_resolves :
  length (split_on ":" "10") = 1%nat
  /\ event_datetime (PyStr "2024-06-01") (PyStr "10")
     = Ok (Sample.at_ 2024 6 1 10 0 0)
  /\ length (split_on ":" "10:30:00:pm") = 4%nat
  /\ event_datetime (PyStr "2024-06-01") (PyStr "10:30:00:pm")
     = Ok (Sample.at_ 2024 6 1 10 30 0)
  /\ event_datetime (PyStr "2024-06-01") (PyStr "25:00")
     = Raise MalformedTimeError.
Proof. repeat split; vm_compute; reflexivity. Qed.

Local Ltac resolve_cases :=
  repeat match goal with
         | |- _ /\ _ => split
         | |- _ <-> _ => split
         | |- forall _, _ => intro
         | H : _ \/ _ |- _ => destruct H
         | H : exists _, _ |- _ => destruct H
         | H : _ /\ _ |- _ => destruct H
         | H : is_Some None |- _ => destruct H
         | H : Some _ = Some _ |- _ => injection H as H; subst
         | H : Ok _ = Ok _ |- _ => injection H as H; subst
         end;
  try discriminate; try congruence;
  try (left; auto; fail);
  try (right; eexists _, _, _; repeat split; eauto; fail);
  try (eexists _, _, _; repeat split; eauto; fail);
  try (eexists _, _, _, _; repeat split; eauto; fail).

(** C5, amended: for an ASCII date and a non-empty ASCII time string, only
    the first three components between colons are read, a missing second
    or third one counting as 0.  Resolution fails with [MalformedTimeError]
    exactly when one of them is not an integer literal, or when all are,
    the date is a calendar date, and the numbers are C integers off the
    clock; with [OverflowError] exactly when they are integer literals,
    the date is a calendar date and a number is not a C integer; with
    [MalformedDateError] exactly when they are integer literals and the
    date is not a calendar date.  It succeeds, with the instant they
    denote, exactly when they are on the clock and the date is a calendar
    date.  Without a time it fails, with [MalformedDateError], exactly
    when the date is not a calendar date, and gives the end of the day
    otherwise. *)
Theorem resolve_failures (d t : string) :
  t <> "" -> is_ascii t = true -> is_ascii d = true ->
  let component (i : nat) : option Z :=
    match split_on ":" t !! i with
    | Some p => int_literal p
    | None => Some 0
    end in
  let numeric (h m s : Z) : Prop :=
    component 0%nat = Some h /\ component 1%nat = Some m /\ component 2%nat = Some s in
  (event_datetime (PyStr d) (PyStr t) = Raise MalformedTimeError
   <-> (component 0%nat = None \/ component 1%nat = None \/ component 2%nat = None)
       \/ exists h m s, numeric h m s /\ is_Some (parse_date d)
                        /\ c_int h && c_int m && c_int s = true
                        /\ valid_time h m s = false)
  /\ (event_datetime (PyStr d) (PyStr t) = Raise OverflowError
      <-> exists h m s, numeric h m s /\ is_Some (parse_date d)
                        /\ c_int h && c_int m && c_int s = false)
  /\ (event_datetime (PyStr d) (PyStr t) = Raise MalformedDateError
      <-> exists h m s, numeric h m s /\ parse_date d = None)
  /\ (forall at_, event_datetime (PyStr d) (PyStr t) = Ok at_
      <-> exists h m s dd, numeric h m s /\ parse_date d = Some dd
                           /\ valid_time h m s = true
                           /\ at_ = combine dd (mktime h m s 0))
  /\ (forall v, truthy v = false ->
       (event_datetime (PyStr d) v = Raise MalformedDateError
        <-> parse_date d = None)
       /\ forall dd, parse_date d = Some dd ->
            event_datetime (PyStr d) v = Ok (combine dd (mktime 23 59 59 0))).
Proof.
  intros Ht _ _ component numeric. subst numeric.
  assert (Hday : forall v, truthy v = false ->
            (event_datetime (PyStr d) v = Raise MalformedDateError
             <-> parse_date d = None)
            /\ forall dd, parse_date d = Some dd ->
                 event_datetime (PyStr d) v = Ok (combine dd (mktime 23 59 59 0))).
  { intros v Hv. rewrite (event_datetime_all_day d v Hv).
    destruct (parse_date d) as [dd|].
    - split; [split; discriminate|]. intros ? [= <-]. reflexivity.
    - split; [split; reflexivity|]. discriminate. }
  rewrite (event_datetime_timed d t Ht). fold component. cbv zeta.
  destruct (component 0%nat) as [h|], (component 1%nat) as [m|],
    (component 2%nat) as [s|];
    try (split; [|split; [|split; [|split; [|exact Hday]]]]; solve [resolve_cases]).
  destruct (parse_date d) as [dd|];
    [|split; [|split; [|split; [|split; [|exact Hday]]]]; solve [resolve_cases]].
  unfold time_of.
  destruct (c_int h && c_int m && c_int s) eqn:Hc, (valid_time h m s) eqn:Hv;
    try (rewrite (valid_time_c_int _ _ _ Hv) in Hc; discriminate);
    cbn [res_bind];
    (split; [|split; [|split; [|split; [|exact Hday]]]]); solve [resolve_cases].
Qed.

Lemma resolve_failures_witness :
  event_datetime (PyStr "2024-06-01") (PyStr "10:30")
  = Ok (Sample.at_ 2024 6 1 10 30 0)
  /\ event_datetime (PyStr "2024-02-30") (PyStr "10:30:15")
     = Raise MalformedDateError
  /\ event_datetime (PyStr "2024-06-01") (PyStr "10:3o")
     = Raise MalformedTimeError
  /\ event_datetime (PyStr "2024-06-01") (PyStr "99999999999:00")
     = Raise OverflowError
  /\ event_datetime (PyStr "2024-06-01") PyNone
     = Ok (Sample.at_ 2024 6 1 23 59 59).
Proof.
  split; [|split; [|split; [|split]]].
  - apply (proj2 (proj1 (proj2 (proj2 (proj2
             (resolve_failures "2024-06-01" "10:30" ltac:(discriminate)
                               eq_refl eq_refl)))) _)).
    exists 10, 30, 0, (mkdate 2024 6 1). repeat split; reflexivity.
  - apply (proj2 (proj1 (proj2 (proj2
             (resolve_failures "2024-02-30" "10:30:15" ltac:(discriminate)
                               eq_refl eq_refl))))).
    exists 10, 30, 15. repeat split; reflexivity.
  - apply (proj2 (proj1
             (resolve_failures "2024-06-01" "10:3o" ltac:(discriminate)
                               eq_refl eq_refl))).
    left. right. left. reflexivity.
  - apply (proj2 (proj1 (proj2
             (resolve_failures "2024-06-01" "99999999999:00" ltac:(discriminate)
                               eq_refl eq_refl)))).
    exists 99999999999, 0, 0. repeat split; try reflexivity. eexists. reflexivity.
  - apply (proj2 (proj2 (proj2 (proj2 (proj2
             (resolve_failures "2024-06-01" "10:30" ltac:(discriminate)
                               eq_refl eq_refl)))) PyNone eq_refl)).
    reflexivity.
Defined.

(** ** C10: a refused cancellation writes nothing *)

Lemma select_run t cols cs w :
  exists r, select t cols cs w
            = (r, mkWorld (configured w) (db w) (tl (outages w))).
Proof.
  unfold select, round_trip. destruct (hd false (outages w)); eauto.
Qed.

(** C10: whenever [cancel_destination] answers anything but 200 (the
    destination is not found, the requester is not its owner, it is
    already cancelled, it is judged past, or an exception was caught) the
    tables are as they were before the request. *)
Theorem cancel_error_writes_nothing
    (destination_id : Z) (session_user_id : pyval) (now : datetime) (w : World) :
  code (fst (cancel_destination destination_id session_user_id now w)) <> 200 ->
  db (snd (cancel_destination destination_id session_user_id now w)) = db w.
Proof.
  unfold cancel_destination. destruct (configured w); [|reflexivity].
  cbn [negb]. unfold try_except, cancel, bind, lift, ret.
  destruct (select_run Destinations All [Eq "id" (PyInt destination_id)] w)
    as (r & ->).
  destruct r as [[|destination rest]|e]; [reflexivity| |reflexivity].
  destruct (getitem destination "user_id") as [owner|e]; [|reflexivity].
  destruct (negb (py_eq owner session_user_id)); [reflexivity|].
  destruct (py_eq _ (PyStr "cancelled")); [reflexivity|].
  destruct (scheduled_datetime destination) as [at_|e]; [|reflexivity].
  destruct (dt_lt at_ now); [reflexivity|].
  destruct (update _ _ _ _) as [[rs|e] w'] eqn:Hu.
  - cbn. intros H. contradiction.
  - intros _. cbn. exact (round_trip_raise _ _ _ _ Hu).
Qed.

Lemma cancel_error_writes_nothing_witness :
  db (snd (cancel_destination 1 (PyInt 2) (Sample.at_ 2024 5 1 9 0 0)
                              (Sample.reliable Sample.joined_store)))
  = Sample.joined_store.
Proof.
  apply (cancel_error_writes_nothing 1 (PyInt 2) (Sample.at_ 2024 5 1 9 0 0)
           (Sample.reliable Sample.joined_store)).
  vm_compute. discriminate.
Defined.

(** The four refusals that [cancel_destination] spells out. *)
Lemma cancel_refusals :
  fst (cancel_destination 9 (PyInt 1) (Sample.at_ 2024 5 1 9 0 0)
                          (Sample.reliable Sample.joined_store))
  = mkResponse 404 (Error "Destination not found")
  /\ fst (cancel_destination 1 (PyInt 2) (Sample.at_ 2024 5 1 9 0 0)
                             (Sample.reliable Sample.joined_store))
     = mkResponse 403 (Error "Unauthorized")
  /\ fst (cancel_destination 1 (PyInt 1) (Sample.at_ 2024 5 1 9 0 0)
            (Sample.reliable
               (mkStore [Sample.event 1 1 "2024-06-01" PyNone "cancelled"] [] [])))
     = mkResponse 400 (Error "Destination is already cancelled")
  /\ fst (cancel_destination 1 (PyInt 1) (Sample.at_ 2024 7 1 9 0 0)
                             (Sample.reliable Sample.joined_store))
     = mkResponse 400 (Error "Cannot cancel past events").
Proof. repeat split; vm_compute; reflexivity. Qed.

(** ** C9: aggregation never lets an error out *)

(** C9: if the body of [get_destinations] raises at any step, the route
    answers the empty list. *)
Theorem aggregate_failure_is_empty (user_id : pyval) (w w' : World) (e : exn) :
  aggregate user_id w = (Raise e, w') ->
  fst (get_destinations user_id w) = [].
Proof.
  intros H. unfold get_destinations, try_except.
  destruct (configured w); [|reflexivity]. cbn [negb]. rewrite H. reflexivity.
Qed.

(** A store query that fails, an owner lookup that fails, and a sort that
    fails: each time the answer is the empty list. *)
Lemma aggregate_failure_is_empty_witness :
  fst (get_destinations (PyInt 1) (mkWorld true Sample.joined_store [true])) = []
  /\ fst (get_destinations (PyInt 1)
            (mkWorld true Sample.joined_store [false; false; true])) = []
  /\ fst (get_destinations (PyInt 1) (Sample.reliable (Sample.sort_store PyNone))) = [].
Proof.
  split; [|split].
  - apply (aggregate_failure_is_empty (PyInt 1) (mkWorld true Sample.joined_store [true])
             (mkWorld true Sample.joined_store []) APIError).
    vm_compute. reflexivity.
  - apply (aggregate_failure_is_empty (PyInt 1)
             (mkWorld true Sample.joined_store [false; false; true])
             (mkWorld true Sample.joined_store []) APIError).
    vm_compute. reflexivity.
  - apply (aggregate_failure_is_empty (PyInt 1)
             (Sample.reliable (Sample.sort_store PyNone))
             (Sample.reliable (Sample.sort_store PyNone)) TypeError).
    vm_compute. reflexivity.
Defined.

(** ** [==] is an equivalence *)

Lemma py_eq_norm a b : py_eq a b = true <-> norm a = norm b.
Proof.
  destruct a as [|x|x|x], b as [|y|y|y]; unfold py_eq, norm; split;
    try discriminate; try reflexivity.
  - intros H. apply Bool.eqb_prop in H. congruence.
  - intros [= H]. destruct x, y; try reflexivity; discriminate.
  - intros H. apply Z.eqb_eq in H. congruence.
  - intros [= H]. apply Z.eqb_eq. exact H.
  - intros H. apply Z.eqb_eq in H. congruence.
  - intros [= H]. apply Z.eqb_eq. exact H.
  - intros H. apply Z.eqb_eq in H. congruence.
  - intros [= H]. apply Z.eqb_eq. exact H.
  - intros H. apply String.eqb_eq in H. congruence.
  - intros [= H]. apply String.eqb_eq. exact H.
Qed.

Lemma py_eq_sym a b : py_eq a b = py_eq b a.
Proof.
  destruct (py_eq a b) eqn:H1, (py_eq b a) eqn:H2; try reflexivity.
  - apply py_eq_norm in H1. symmetry in H1. apply py_eq_norm in H1. congruence.
  - apply py_eq_norm in H2. symmetry in H2. apply py_eq_norm in H2. congruence.
Qed.

Lemma py_eq_trans a b c : py_eq a b = true -> py_eq b c = true -> py_eq a c = true.
Proof. rewrite !py_eq_norm. congruence. Qed.

Lemma py_eq_trans_false a b c :
  py_eq a b = true -> py_eq a c = false -> py_eq b c = false.
Proof.
  intros Hab Hac. destruct (py_eq b c) eqn:Hbc; [|reflexivity].
  rewrite (py_eq_trans _ _ _ Hab Hbc) in Hac. discriminate.
Qed.

(** ** Dictionaries in insertion order *)

Import Shape.

Lemma dict_mem_set {V} (x k : pyval) (v : V) (d : odict V) :
  dict_mem x (dict_set k v d) = dict_mem x d || py_eq k x.
Proof.
  induction d as [|[k' v'] d IH]; cbn; [apply orb_false_r|].
  destruct (py_eq k' k) eqn:Hk; cbn.
  - destruct (py_eq k x) eqn:Hx; [|rewrite orb_false_r; reflexivity].
    rewrite (py_eq_trans _ _ _ Hk Hx). reflexivity.
  - rewrite IH, orb_assoc. reflexivity.
Qed.

Lemma dict_mem_true {V} (x : pyval) (d : odict V) :
  dict_mem x d = true <-> exists k v, (k, v) ∈ d /\ py_eq k x = true.
Proof.
  induction d as [|[k' v'] d IH]; cbn.
  - split; [discriminate|]. intros (k & v & H & _). inversion H.
  - rewrite orb_true_iff, IH. split.
    + intros [H|(k & v & H & Hk)].
      * exists k', v'. split; [left|exact H].
      * exists k, v. split; [right; exact H|exact Hk].
    + intros (k & v & H & Hk). apply elem_of_cons in H as [[= -> ->]|H]; eauto.
Qed.

Lemma distinct_keys_set {V} (k : pyval) (v : V) (d : odict V) :
  distinct_keys d -> distinct_keys (dict_set k v d).
Proof.
  induction d as [|[k' v'] d IH]; cbn; [auto|]. intros [Hm Hd].
  destruct (py_eq k' k) eqn:Hk; cbn; [auto|]. split; [|auto].
  rewrite dict_mem_set, Hm, py_eq_sym, Hk. reflexivity.
Qed.

(** An entry of the updated dictionary is an old one, or holds the new
    value under a key that is [==] to the new key. *)
Lemma elem_of_dict_set {V} (k k' : pyval) (v v' : V) (d : odict V) :
  (k', v') ∈ dict_set k v d -> (k', v') ∈ d \/ (v' = v /\ py_eq k' k = true).
Proof.
  induction d as [|[k0 v0] d IH]; cbn.
  - intros H. apply list_elem_of_singleton in H as [= -> ->].
    right. split; [reflexivity|apply py_eq_refl].
  - destruct (py_eq k0 k) eqn:Hk; intros H; apply elem_of_cons in H as [H|H].
    + injection H as -> ->. right. split; [reflexivity|exact Hk].
    + left. right. exact H.
    + left. rewrite H. left.
    + destruct (IH H) as [H'|H']; [left; right; exact H'|right; exact H'].
Qed.

(** Setting a key that is not there appends and keeps every entry. *)
Lemma dict_set_fresh {V} (k : pyval) (v : V) (d : odict V) :
  dict_mem k d = false -> dict_set k v d = d ++ [(k, v)].
Proof.
  induction d as [|[k0 v0] d IH]; cbn; [reflexivity|].
  intros H. apply orb_false_iff in H as [H1 H2]. rewrite H1, (IH H2). reflexivity.
Qed.

(** ** Folds that may raise *)

Lemma res_fold_invariant {A S} (f : S -> A -> res S) (P : list A -> S -> Prop) :
  (forall seen s x s', P seen s -> f s x = Ok s' -> P (seen ++ [x]) s') ->
  forall l seen s s', P seen s -> res_fold f l s = Ok s' -> P (seen ++ l) s'.
Proof.
  intros Hstep l. induction l as [|x l IH]; intros seen s s' HP; cbn.
  - intros [= <-]. rewrite app_nil_r. exact HP.
  - destruct (f s x) as [s1|e] eqn:Hf; [|discriminate]. cbn. intros H.
    replace (seen ++ x :: l) with ((seen ++ [x]) ++ l)
      by (rewrite <- app_assoc; reflexivity).
    eapply IH; [eapply Hstep; eassumption|exact H].
Qed.

Lemma bind_ok {A B} (c : M A) (k : A -> M B) w b w' :
  bind c k w = (Ok b, w') -> exists a w1, c w = (Ok a, w1) /\ k a w1 = (Ok b, w').
Proof.
  unfold bind. destruct (c w) as [[a|e] w1]; [eauto|discriminate].
Qed.

Lemma lift_ok {A} (c : res A) w a w' : lift c w = (Ok a, w') -> c = Ok a /\ w' = w.
Proof. unfold lift. intros [= -> ->]. auto. Qed.

Lemma select_served t cols cs w :
  hd false (outages w) = false ->
  select t cols cs w
  = (Ok (project cols <$> filter (matches cs) (rows_of t (db w))),
     mkWorld (configured w) (db w) (tl (outages w))).
Proof. intros H. unfold select, round_trip. rewrite H. reflexivity. Qed.

Lemma select_ok t cols cs w rs w' :
  select t cols cs w = (Ok rs, w') ->
  rs = project cols <$> filter (matches cs) (rows_of t (db w)).
Proof.
  unfold select, round_trip. destruct (hd false (outages w)); [discriminate|].
  intros [= <- _]. reflexivity.
Qed.

(** ** C6: the two passes of the merge *)

Lemma has_id_snoc (x : pyval) (seen : list row) (dest : row) (id : pyval) :
  dest !! "id" = Some id ->
  has_id x (seen ++ [dest]) <-> has_id x seen \/ py_eq id x = true.
Proof.
  intros Hid. unfold has_id. split.
  - intros (r & j & Hr & Hj & Hx). apply elem_of_app in Hr as [Hr|Hr].
    + left. eauto.
    + apply list_elem_of_singleton in Hr as ->. right. congruence.
  - intros [(r & j & Hr & Hj & Hx)|Hx].
    + exists r, j. split; [apply elem_of_app; left; exact Hr|auto].
    + exists dest, id. split; [apply elem_of_app; right; left|auto].
Qed.

Lemma has_id_eq (x y : pyval) (rs : list row) :
  py_eq x y = true -> has_id x rs -> has_id y rs.
Proof.
  intros Hxy (r & j & Hr & Hj & Hx). exists r, j.
  split; [exact Hr|split; [exact Hj|exact (py_eq_trans _ _ _ Hx Hxy)]].
Qed.

(** After the first pass: one entry per created id, each an organizer's. *)
Lemma created_pass (created : list row) (owned : odict row) :
  res_fold add_created created [] = Ok owned ->
  distinct_keys owned /\ filed_by_id owned
  /\ Forall (fun kv => kv.2 !! "is_organizer" = Some (PyBool true)) owned
  /\ forall x, dict_mem x owned = true <-> has_id x created.
Proof.
  intros H.
  refine (res_fold_invariant add_created
            (fun seen d =>
               distinct_keys d /\ filed_by_id d
               /\ Forall (fun kv => kv.2 !! "is_organizer" = Some (PyBool true)) d
               /\ forall x, dict_mem x d = true <-> has_id x seen)
            _ created [] [] owned _ H).
  - clear. intros seen d dest d' (Hd & Hf & Ho & Hm). unfold add_created, getitem.
    destruct (dest !! "id") as [id|] eqn:Hid; [|discriminate]. cbn. intros [= <-].
    split; [apply distinct_keys_set, Hd|]. split; [|split].
    + unfold filed_by_id in *. rewrite Forall_forall in Hf |- *. intros [k v] Hkv.
      apply elem_of_dict_set in Hkv as [Hkv|[-> Hk]]; [exact (Hf _ Hkv)|].
      exists id. cbn [fst snd].
      split; [rewrite lookup_insert_ne by discriminate; exact Hid|exact Hk].
    + rewrite Forall_forall in Ho |- *. intros [k v] Hkv.
      apply elem_of_dict_set in Hkv as [Hkv|[-> Hk]]; [exact (Ho _ Hkv)|].
      cbn [snd]. apply lookup_insert_eq.
    + intros x. rewrite dict_mem_set, orb_true_iff, (has_id_snoc _ _ _ _ Hid), Hm.
      reflexivity.
  - split; [exact I|]. split; [constructor|]. split; [constructor|].
    intros x. split; [discriminate|]. intros (r & j & Hr & _). inversion Hr.
Qed.

(** One turn of the second pass leaves the dictionary alone or appends an
    entry, marked as a participant's, under an id that was not there. *)
Lemma add_participated_spec participants (d d' : odict row) (dest : row) :
  add_participated participants d dest = Ok d' ->
  d' = d
  \/ exists id v, dict_mem id d = false /\ v !! "id" = Some id
                  /\ v !! "is_organizer" = Some (PyBool false)
                  /\ d' = d ++ [(id, v)].
Proof.
  unfold add_participated, getitem.
  destruct (dest !! "id") as [id|] eqn:Hid; [|discriminate]. cbn.
  destruct (dict_mem id d) eqn:Hm; cbn; [intros [= <-]; left; reflexivity|].
  destruct (find_participation id participants) as [part|e]; [|discriminate]. cbn.
  match goal with |- context [res_bind ?c _] => destruct c as [pt|e] end;
    [|discriminate].
  cbn. intros [= <-]. right. eexists id, _. split; [exact Hm|].
  split; [|split; [|apply dict_set_fresh, Hm]].
  - rewrite !lookup_insert_ne by discriminate. exact Hid.
  - rewrite lookup_insert_ne by discriminate. apply lookup_insert_eq.
Qed.

Lemma participated_pass participants (pds : list row) (owned merged : odict row) :
  distinct_keys owned -> filed_by_id owned ->
  res_fold (add_participated participants) pds owned = Ok merged ->
  distinct_keys merged /\ filed_by_id merged
  /\ (forall kv, kv ∈ owned -> kv ∈ merged)
  /\ (forall kv, kv ∈ merged -> kv ∈ owned \/ dict_mem kv.1 owned = false).
Proof.
  intros Hd Hf H.
  enough (distinct_keys merged /\ filed_by_id merged
          /\ (forall kv, kv ∈ owned -> kv ∈ merged)
          /\ (forall x, dict_mem x owned = true -> dict_mem x merged = true)
          /\ (forall kv, kv ∈ merged -> kv ∈ owned \/ dict_mem kv.1 owned = false))
    as (H1 & H2 & H3 & _ & H5) by auto.
  refine (res_fold_invariant (add_participated participants)
            (fun _ d =>
               distinct_keys d /\ filed_by_id d
               /\ (forall kv, kv ∈ owned -> kv ∈ d)
               /\ (forall x, dict_mem x owned = true -> dict_mem x d = true)
               /\ (forall kv, kv ∈ d -> kv ∈ owned \/ dict_mem kv.1 owned = false))
            _ pds [] owned merged _ H).
  - clear H. intros _ d dest d' (H1 & H2 & H3 & H4 & H5) Hstep.
    apply add_participated_spec in Hstep as [->|(id & v & Hm & Hid & _ & ->)]; [auto 6|].
    split; [rewrite <- (dict_set_fresh id v d Hm); apply distinct_keys_set, H1|].
    split; [|split; [|split]].
    + apply Forall_app. split; [exact H2|]. constructor; [|constructor].
      exists id. split; [exact Hid|apply py_eq_refl].
    + intros kv Hkv. apply elem_of_app. left. auto.
    + intros x Hx. rewrite <- (dict_set_fresh id v d Hm), dict_mem_set, (H4 x Hx).
      reflexivity.
    + intros kv Hkv. apply elem_of_app in Hkv as [Hkv|Hkv]; [auto|].
      apply list_elem_of_singleton in Hkv as ->. right. cbn.
      destruct (dict_mem id owned) eqn:Ho; [|reflexivity].
      rewrite (H4 id Ho) in Hm. discriminate.
  - repeat split; auto.
Qed.

Lemma distinct_ids (d : odict row) :
  distinct_keys d -> filed_by_id d -> NoDup ((core <$> dict_values d).*1).
Proof.
  unfold filed_by_id, dict_values.
  induction d as [|[k v] d IH]; cbn; [constructor|].
  intros [Hm Hd] Hf. apply Forall_cons in Hf as [(i & Hi & Hki) Hf]. cbn in Hi, Hki.
  apply NoDup_cons. split; [|auto].
  rewrite Hi. intros Hin.
  apply list_elem_of_fmap in Hin as ([o1 o2] & Ho & Hin). cbn in Ho. subst o1.
  apply list_elem_of_fmap in Hin as (r & [= Hr _] & Hin).
  apply list_elem_of_fmap in Hin as ([k2 v2] & -> & Hin). cbn in Hr.
  rewrite Forall_forall in Hf. destruct (Hf _ Hin) as (i2 & Hi2 & Hk2). cbn in Hi2, Hk2.
  assert (i2 = i) as -> by congruence.
  assert (dict_mem k d = true) as Hc.
  { apply dict_mem_true. exists k2, v2. split; [exact Hin|].
    apply (py_eq_trans _ i); [exact Hk2|]. rewrite py_eq_sym. exact Hki. }
  congruence.
Qed.

(** The merged dictionary, read through [core]. *)
Lemma merged_cores participants (created pds : list row) (owned merged : odict row) :
  res_fold add_created created [] = Ok owned ->
  res_fold (add_participated participants) pds owned = Ok merged ->
  let cores := core <$> dict_values merged in
  NoDup cores.*1
  /\ (forall i o, (Some i, o) ∈ cores -> has_id i created -> o = Some (PyBool true))
  /\ (forall x, has_id x created ->
       exists i, (Some i, Some (PyBool true)) ∈ cores /\ py_eq i x = true).
Proof.
  intros H1 H2. destruct (created_pass _ _ H1) as (Hd & Hf & Ho & Hm).
  destruct (participated_pass _ _ _ _ Hd Hf H2) as (Hd' & Hf' & Hkeep & Hnew).
  cbn zeta. split; [apply distinct_ids; assumption|].
  unfold filed_by_id in *. rewrite Forall_forall in Hf, Hf', Ho.
  split.
  - intros i o Hin Hi.
    apply list_elem_of_fmap in Hin as (r & [= Hr ->] & Hin).
    apply list_elem_of_fmap in Hin as ([k v] & -> & Hin). cbn in Hr |- *.
    destruct (Hf' _ Hin) as (i' & Hi' & Hk). cbn in Hi', Hk.
    assert (i' = i) as -> by congruence.
    destruct (Hnew _ Hin) as [Hold|Hfresh]; [exact (Ho _ Hold)|]. cbn in Hfresh.
    assert (dict_mem k owned = true) as Hc; [|congruence].
    apply Hm. apply (has_id_eq i); [rewrite py_eq_sym; exact Hk|exact Hi].
  - intros x Hx. apply Hm, dict_mem_true in Hx as (k & v & Hin & Hk).
    destruct (Hf _ Hin) as (i & Hi & Hki). cbn in Hi, Hki.
    exists i. split.
    + apply list_elem_of_fmap. exists v. unfold core.
      pose proof (Ho _ Hin) as Hov. cbn in Hov. rewrite Hi, Hov.
      split; [reflexivity|]. apply list_elem_of_fmap. exists (k, v).
      split; [reflexivity|apply Hkeep, Hin].
    + apply (py_eq_trans _ k); [rewrite py_eq_sym; exact Hki|exact Hk].
Qed.

(** Naming the organizer touches neither the id nor the flag. *)
Lemma add_organizer_name_core dest w dest' w' :
  add_organizer_name dest w = (Ok dest', w') -> core dest' = core dest.
Proof.
  unfold add_organizer_name. destruct (truthy _); [|intros [= <- _]; reflexivity].
  intros H. apply bind_ok in H as (uid & w1 & _ & H).
  apply bind_ok in H as (organizer & w2 & _ & H).
  destruct organizer as [|u rest]; injection H as <- _; [reflexivity|].
  unfold core. rewrite !lookup_insert_ne by discriminate. reflexivity.
Qed.

Lemma add_organizer_names_core d w d' w' :
  add_organizer_names d w = (Ok d', w') ->
  core <$> dict_values d' = core <$> dict_values d.
Proof.
  revert w d' w'. induction d as [|[k v] d IH]; intros w d' w'; cbn.
  - intros [= <- _]. reflexivity.
  - intros H. apply bind_ok in H as (v' & w1 & Hv & H).
    apply bind_ok in H as (rest & w2 & Hrest & [= <- _]).
    cbn. rewrite (add_organizer_name_core _ _ _ _ Hv).
    f_equal. exact (IH _ _ _ Hrest).
Qed.

(** ** Sorting rearranges *)

Lemma insert_sorted_perm {A K} (lt : K -> K -> res bool) (key : A -> K) x l r :
  insert_sorted lt key x l = Ok r -> r ≡ₚ x :: l.
Proof.
  revert r. induction l as [|y l IH]; intros r; cbn.
  - intros [= <-]. reflexivity.
  - destruct (lt (key x) (key y)) as [[|]|e]; cbn; try discriminate.
    + intros [= <-]. reflexivity.
    + destruct (insert_sorted lt key x l) as [r'|e]; [|discriminate]. cbn.
      intros [= <-]. rewrite (IH r' eq_refl). apply Permutation_swap.
Qed.

Lemma sort_into_perm {A K} (lt : K -> K -> res bool) (key : A -> K) l acc r :
  sort_into lt key acc l = Ok r -> r ≡ₚ acc ++ l.
Proof.
  revert acc r. induction l as [|x l IH]; intros acc r; cbn.
  - intros [= <-]. rewrite app_nil_r. reflexivity.
  - destruct (insert_sorted lt key x acc) as [acc'|e] eqn:Hi; [|discriminate]. cbn.
    intros H. rewrite (IH _ _ H), (insert_sorted_perm _ _ _ _ _ Hi).
    cbn. apply Permutation_middle.
Qed.

Lemma list_sort_perm {A K} (lt : K -> K -> res bool) (key : A -> K) l r :
  list_sort lt key l = Ok r -> r ≡ₚ l.
Proof. apply sort_into_perm. Qed.

(** ** C6: one entry per event, the organizer's when there is one *)

Lemma project_all (rs : list row) : project All <$> rs = rs.
Proof. induction rs as [|r rs IH]; cbn; [reflexivity|]. f_equal. exact IH. Qed.

Lemma aggregate_cores (user_id : pyval) (w w' : World) (rows : list row) :
  aggregate user_id w = (Ok rows, w') ->
  let created := filter (matches [Eq "user_id" user_id]) (destinations (db w)) in
  let cores := core <$> rows in
  NoDup cores.*1
  /\ (forall i o, (Some i, o) ∈ cores -> has_id i created -> o = Some (PyBool true))
  /\ (forall x, has_id x created ->
       exists i, (Some i, Some (PyBool true)) ∈ cores /\ py_eq i x = true).
Proof.
  unfold aggregate. intros H.
  apply bind_ok in H as (created & w1 & Hc & H).
  apply select_ok in Hc. rewrite project_all in Hc. cbn [rows_of] in Hc.
  apply bind_ok in H as (participants & w2 & _ & H).
  apply bind_ok in H as (event_ids & w3 & _ & H).
  apply bind_ok in H as (pds & w4 & _ & H).
  apply bind_ok in H as (owned & w5 & Ho & H). apply lift_ok in Ho as [Ho _].
  apply bind_ok in H as (merged & w6 & Hm & H). apply lift_ok in Hm as [Hm _].
  apply bind_ok in H as (named & w7 & Hn & H). apply lift_ok in H as [Hs _].
  apply list_sort_perm in Hs. apply add_organizer_names_core in Hn.
  pose proof (merged_cores _ _ _ _ _ Ho Hm) as (P1 & P2 & P3).
  assert (Hp : core <$> rows ≡ₚ core <$> dict_values merged)
    by (rewrite Hs, Hn; reflexivity).
  cbn zeta. rewrite <- Hc. split; [|split].
  - rewrite Hp. exact P1.
  - intros i o Hin. rewrite Hp in Hin. exact (P2 i o Hin).
  - intros x Hx. destruct (P3 x Hx) as (i & Hin & Hi).
    exists i. rewrite Hp. auto.
Qed.

(** What the merge does guarantee: the answer of [get_destinations] never
    holds two rows with the same id, and a row whose id is that of an
    event the user owns carries [is_organizer = True], whether or not the
    user also takes part in it; when the aggregation goes through, every
    owned event is there. *)
Theorem aggregate_one_entry_per_event (user_id : pyval) (w : World) :
  let result := fst (get_destinations user_id w) in
  let owns (c : row) :=
    c ∈ destinations (db w) /\ matches [Eq "user_id" user_id] c = true in
  NoDup ((fun r : row => r !! "id") <$> result)
  /\ (forall r c i j,
        r ∈ result -> owns c -> r !! "id" = Some i -> c !! "id" = Some j ->
        py_eq i j = true -> r !! "is_organizer" = Some (PyBool true))
  /\ (forall rows w',
        configured w = true -> aggregate user_id w = (Ok rows, w') ->
        result = rows
        /\ forall c j, owns c -> c !! "id" = Some j ->
             exists r i, r ∈ rows /\ r !! "id" = Some i /\ py_eq i j = true
                         /\ r !! "is_organizer" = Some (PyBool true)).
Proof.
  cbn zeta.
  assert (Hown : forall c j,
             c ∈ destinations (db w) /\ matches [Eq "user_id" user_id] c = true ->
             c !! "id" = Some j ->
             has_id j (filter (matches [Eq "user_id" user_id]) (destinations (db w)))).
  { intros c j [Hc Hm] Hj. exists c, j. split; [|split; [exact Hj|apply py_eq_refl]].
    apply list_elem_of_filter. split; [apply Is_true_true, Hm|exact Hc]. }
  assert (Hget : forall rows w', configured w = true ->
             aggregate user_id w = (Ok rows, w') ->
             fst (get_destinations user_id w) = rows).
  { intros rows w' Hc Ha. unfold get_destinations, try_except. rewrite Hc, Ha.
    reflexivity. }
  split; [|split].
  - unfold get_destinations, try_except.
    destruct (configured w); [|constructor]. cbn [negb].
    destruct (aggregate user_id w) as [[rows|e] w'] eqn:Ha; [|constructor]. cbn.
    destruct (aggregate_cores _ _ _ _ Ha) as (P1 & _).
    rewrite <- list_fmap_compose in P1. exact P1.
  - intros r c i j Hr Hc Hi Hj Hij.
    unfold get_destinations, try_except in Hr.
    destruct (configured w); [|inversion Hr]. cbn [negb] in Hr.
    destruct (aggregate user_id w) as [[rows|e] w'] eqn:Ha; [|inversion Hr].
    cbn in Hr. destruct (aggregate_cores _ _ _ _ Ha) as (_ & P2 & _).
    apply (P2 i).
    + apply list_elem_of_fmap. exists r. unfold core. rewrite Hi. auto.
    + apply (has_id_eq j); [rewrite py_eq_sym; exact Hij|exact (Hown c j Hc Hj)].
  - intros rows w' Hc Ha. split; [exact (Hget _ _ Hc Ha)|].
    intros c j Hcown Hj. destruct (aggregate_cores _ _ _ _ Ha) as (_ & _ & P3).
    destruct (P3 j (Hown c j Hcown Hj)) as (i & Hin & Hij).
    apply list_elem_of_fmap in Hin as (r & [= Hi Ho] & Hr).
    exists r, i. auto.
Qed.

(** User 1 owns events 1 and 2 and has joined event 1: each comes once,
    as the organizer's. *)
Lemma aggregate_one_entry_per_event_witness :
  exists r i,
    r ∈ fst (get_destinations (PyInt 1) (Sample.reliable Sample.own_and_joined))
    /\ r !! "id" = Some i /\ py_eq i (PyInt 1) = true
    /\ r !! "is_organizer" = Some (PyBool true).
Proof.
  destruct (aggregate (PyInt 1) (Sample.reliable Sample.own_and_joined))
    as [[rows|e] w'] eqn:Ha; [|vm_compute in Ha; discriminate].
  destruct (proj2 (proj2 (aggregate_one_entry_per_event (PyInt 1)
              (Sample.reliable Sample.own_and_joined))) rows w' eq_refl Ha)
    as [-> H].
  apply (H Sample.at_ten (PyInt 1)); [split; [left|reflexivity]|reflexivity].
Defined.

(** C6 (the code departs from the claim): user 1 owns event 1 and has
    joined it, and has also joined event 3 of user 2.  The participations
    are fetched with [select('event_id')] only, so for event 3 the lookup
    [part['participation_type']] raises [KeyError]; the route answers the
    empty list, and the event that is both owned and joined, which should
    be there once with [is_organizer = True], is not returned at all.
    Without the foreign participation it is. *)
Theorem owned_and_joined_event_not_returned :
  fst (aggregate (PyInt 1) (Sample.reliable Sample.busy))
  = Raise (KeyError "participation_type")
  /\ fst (get_destinations (PyInt 1) (Sample.reliable Sample.busy)) = []
  /\ (fun r : row => (r !! "id", r !! "is_organizer"))
       <$> fst (get_destinations (PyInt 1) (Sample.reliable Sample.own_and_joined))
     = [(Some (PyInt 1), Some (PyBool true)); (Some (PyInt 2), Some (PyBool true))].
Proof. repeat split; vm_compute; reflexivity. Qed.

(** ** C8: one participation record per event and user *)

Lemma sql_eq_spec a b : sql_eq a b = true <-> a <> PyNone /\ py_eq a b = true.
Proof.
  destruct a; cbn; split; try (intros [? ?]; congruence); try discriminate;
    intros H; (split; [discriminate|exact H]).
Qed.

(** An update of the participation kind leaves the pair of a record. *)
Lemma matches_pair_update (e : Z) (u t : pyval) (r : row) :
  matches [Eq "event_id" (PyInt e); Eq "user_id" u]
          ({["participation_type" := t]} ∪ r)
  = matches [Eq "event_id" (PyInt e); Eq "user_id" u] r.
Proof.
  cbn. rewrite !lookup_union_r by (apply lookup_singleton_ne; discriminate).
  reflexivity.
Qed.

Lemma records_for_update (e e' : Z) (u u' t : pyval) (rs : list row) :
  let change (r : row) :=
    if matches [Eq "event_id" (PyInt e); Eq "user_id" u] r
    then {["participation_type" := t]} ∪ r else r in
  records_for e' u' (change <$> rs) = change <$> records_for e' u' rs.
Proof.
  cbn zeta. unfold records_for. induction rs as [|r rs IH]; [reflexivity|].
  rewrite fmap_cons.
  match goal with |- context [filter ?P (?x :: _)] =>
    assert (Hx : matches [Eq "event_id" (PyInt e'); Eq "user_id" u'] x
                 = matches [Eq "event_id" (PyInt e'); Eq "user_id" u'] r)
  end.
  { destruct (matches [Eq "event_id" (PyInt e); Eq "user_id" u] r);
      [apply matches_pair_update|reflexivity]. }
  destruct (matches [Eq "event_id" (PyInt e'); Eq "user_id" u'] r) eqn:Hr.
  - rewrite !filter_cons_True by (apply Is_true_true; congruence).
    rewrite fmap_cons, IH. reflexivity.
  - rewrite !filter_cons_False by (rewrite Is_true_true; congruence).
    exact IH.
Qed.

(** A new record only counts for pairs that had a record of its own pair. *)
Lemma matches_new_record (e e' : Z) (u u' t : pyval) (r : row) :
  matches [Eq "event_id" (PyInt e'); Eq "user_id" u']
          (<["event_id" := PyInt e]>
             (<["user_id" := u]> {["participation_type" := t]})) = true ->
  matches [Eq "event_id" (PyInt e'); Eq "user_id" u'] r = true ->
  matches [Eq "event_id" (PyInt e); Eq "user_id" u] r = true.
Proof.
  cbn. rewrite lookup_insert_eq, lookup_insert_ne by discriminate.
  rewrite lookup_insert_eq, !andb_true_r. cbn [sql_eq py_eq].
  intros Hn Hr. apply andb_true_iff in Hn as [He Hu], Hr as [Hre Hru].
  apply Z.eqb_eq in He as ->.
  destruct (r !! "event_id") as [x|]; [|discriminate].
  destruct (r !! "user_id") as [y|]; [|discriminate].
  rewrite Hre. cbn. apply sql_eq_spec in Hu as [_ Hu], Hru as [Hy Hru].
  apply sql_eq_spec. split; [exact Hy|].
  apply (py_eq_trans _ u'); [exact Hru|]. rewrite py_eq_sym. exact Hu.
Qed.

Lemma insert_served t r w :
  hd false (outages w) = false ->
  insert t r w
  = (Ok [r], mkWorld (configured w) (with_rows t (rows_of t (db w) ++ [r]) (db w))
                     (tl (outages w))).
Proof. intros H. unfold insert, round_trip. rewrite H. reflexivity. Qed.

Lemma round_trip_cases {A} (f : Store -> A * Store) w :
  (hd false (outages w) = true
   /\ round_trip f w = (Raise APIError, mkWorld (configured w) (db w) (tl (outages w))))
  \/ (hd false (outages w) = false
      /\ round_trip f w
         = (Ok (f (db w)).1, mkWorld (configured w) (f (db w)).2 (tl (outages w)))).
Proof.
  unfold round_trip. destruct (hd false (outages w)); [left; auto|right].
  destruct (f (db w)). auto.
Qed.

(** What a participate request does to the table of participations. *)
Lemma participate_event_table (e : Z) (u : pyval) (data : row) (w w' : World)
    (resp : response) :
  participate_event e u data w = (resp, w') ->
  let t := dict_get data "type" PyNone in
  let before := event_participants (db w) in
  let after := event_participants (db w') in
  (code resp <> 200 /\ after = before)
  \/ (code resp = 200
      /\ ((records_for e u before <> []
           /\ after = (fun r => if matches [Eq "event_id" (PyInt e); Eq "user_id" u] r
                                 then {["participation_type" := t]} ∪ r else r)
                        <$> before)
          \/ (records_for e u before = []
              /\ after = before
                         ++ [<["event_id" := PyInt e]>
                               (<["user_id" := u]> {["participation_type" := t]})]))).
Proof.
  cbn zeta. unfold participate_event.
  destruct (configured w); [|intros [= <- <-]; left; split; [discriminate|reflexivity]].
  cbn [negb]. unfold try_except, participate.
  destruct (negb (py_in _ _));
    [intros [= <- <-]; left; split; [discriminate|reflexivity]|].
  unfold bind at 1.
  destruct (select_run Destinations (Cols ["id"]) [Eq "id" (PyInt e)] w) as (r1 & ->).
  destruct r1 as [[|ev evs]|x];
    try (intros [= <- <-]; left; split; [discriminate|reflexivity]).
  unfold bind at 1. set (w1 := mkWorld _ _ _).
  destruct (round_trip_cases
              (fun s => (project All <$>
                           filter (matches [Eq "event_id" (PyInt e); Eq "user_id" u])
                                  (rows_of EventParticipants s), s)) w1)
    as [[_ Hsel]|[_ Hsel]]; unfold select; rewrite Hsel;
    [intros [= <- <-]; left; split; [discriminate|reflexivity]|].
  cbn [fst snd]. rewrite project_all. cbn [rows_of]. set (w2 := mkWorld _ _ _).
  change (db w1) with (db w).
  destruct (filter _ (event_participants (db w))) as [|r0 rs0] eqn:Hex.
  - unfold bind. destruct (hd false (outages w2)) eqn:Ho.
    + unfold insert, round_trip. rewrite Ho. intros [= <- <-]. left.
      split; [discriminate|reflexivity].
    + rewrite (insert_served _ _ _ Ho). intros [= <- <-]. right.
      split; [reflexivity|]. right. split; [exact Hex|reflexivity].
  - unfold bind. destruct (hd false (outages w2)) eqn:Ho.
    + unfold update, round_trip. rewrite Ho. intros [= <- <-]. left.
      split; [discriminate|reflexivity].
    + rewrite (update_served _ _ _ _ Ho). intros [= <- <-]. right.
      split; [reflexivity|]. left.
      split; [unfold records_for; rewrite Hex; discriminate|reflexivity].
Qed.

Lemma participate_event_keeps_one (e : Z) (u : pyval) (data : row) (w : World) :
  at_most_one_record (event_participants (db w)) ->
  at_most_one_record (event_participants (db (snd (participate_event e u data w)))).
Proof.
  intros Hinv. destruct (participate_event e u data w) as [resp w'] eqn:Hp.
  cbn [snd]. destruct (participate_event_table _ _ _ _ _ _ Hp)
    as [[_ ->]|(_ & [(_ & ->)|(Hnone & ->)])]; [exact Hinv| |]; intros e' u'.
  - rewrite records_for_update, length_fmap. apply Hinv.
  - unfold records_for. rewrite filter_app. rewrite length_app.
    match goal with |- context [filter ?P [?x]] =>
      destruct (matches [Eq "event_id" (PyInt e'); Eq "user_id" u'] x) eqn:Hnew
    end.
    + assert (filter (matches [Eq "event_id" (PyInt e'); Eq "user_id" u'])
                     (event_participants (db w)) = []) as ->.
      { destruct (filter _ (event_participants (db w))) as [|r rs] eqn:Hf;
          [reflexivity|exfalso].
        assert (Hr : r ∈ filter (matches [Eq "event_id" (PyInt e'); Eq "user_id" u'])
                                (event_participants (db w))) by (rewrite Hf; left).
        apply list_elem_of_filter in Hr as [Hr Hin]. apply Is_true_true in Hr.
        pose proof (matches_new_record _ _ _ _ _ _ Hnew Hr) as Hm.
        assert (r ∈ records_for e u (event_participants (db w))) as Hc
          by (apply list_elem_of_filter; split; [apply Is_true_true, Hm|exact Hin]).
        rewrite Hnone in Hc. inversion Hc. }
      rewrite filter_cons_True by (apply Is_true_true, Hnew). cbn. lia.
    + rewrite filter_cons_False by (rewrite Is_true_true; congruence).
      rewrite filter_nil. cbn. rewrite Nat.add_0_r. apply Hinv.
Qed.

Lemma serve_all_snoc requests q w :
  serve_all (requests ++ [q]) w
  = snd (participate_event q.1.1 q.1.2 q.2 (serve_all requests w)).
Proof. unfold serve_all. rewrite foldl_app. reflexivity. Qed.

(** A request of a valid kind for an event that exists, on a client that
    answers every call: it is answered 200, and the table of
    participations is rewritten when the pair has a record and extended
    when it has none. *)
Lemma participate_event_served (e : Z) (u : pyval) (data : row) (w : World) :
  configured w = true -> outages w = [] ->
  py_in (dict_get data "type" PyNone) [PyStr "joined"; PyStr "interested"] = true ->
  filter (matches [Eq "id" (PyInt e)]) (destinations (db w)) <> [] ->
  code (fst (participate_event e u data w)) = 200
  /\ event_participants (db (snd (participate_event e u data w)))
     = match records_for e u (event_participants (db w)) with
       | [] => event_participants (db w)
               ++ [<["event_id" := PyInt e]>
                     (<["user_id" := u]>
                        {["participation_type" := dict_get data "type" PyNone]})]
       | _ => (fun r => if matches [Eq "event_id" (PyInt e); Eq "user_id" u] r
                        then {["participation_type" := dict_get data "type" PyNone]} ∪ r
                        else r)
                <$> event_participants (db w)
       end.
Proof.
  intros Hc Ho Hkind Hev. destruct w as [c st o]. cbn in Hc, Ho. cbn [db] in Hev.
  subst c o.
  cbn [db]. unfold records_for.
  destruct (participate_event e u data (mkWorld true st [])) as [resp w'] eqn:Hp.
  cbn [fst snd]. revert Hp.
  unfold participate_event, try_except, participate. cbn [configured negb].
  rewrite Hkind. cbn [negb]. unfold bind at 1.
  rewrite select_served by reflexivity. cbn [rows_of db configured outages tl].
  destruct (filter (matches [Eq "id" (PyInt e)]) (destinations st)) as [|d ds];
    [contradiction|]. rewrite fmap_cons.
  unfold bind at 1. rewrite select_served by reflexivity.
  rewrite project_all. cbn [rows_of db configured outages tl].
  destruct (filter _ (event_participants st)) as [|r rs].
  - unfold bind. rewrite insert_served by reflexivity. cbn.
    intros [= <- <-]. split; reflexivity.
  - unfold bind. rewrite update_served by reflexivity. cbn.
    intros [= <- <-]. split; reflexivity.
Qed.

(** C8: served one after the other, participate requests never leave two
    records for one event and user.  A request of a valid kind for an
    existing event, on a client that answers every call, is answered 200:
    when the pair has a record the table is rewritten in place (no record
    is added) and when it has none one record is appended; after any
    request answered 200 the records of the pair carry the requested
    kind. *)
Theorem participation_records_unique
    (requests : list (Z * pyval * row)) (w : World) :
  at_most_one_record (event_participants (db w)) ->
  at_most_one_record (event_participants (db (serve_all requests w)))
  /\ (forall (e : Z) (u : pyval) (data : row) (resp : response) (w' : World),
      participate_event e u data (serve_all requests w) = (resp, w') ->
      code resp = 200 ->
      (records_for e u (event_participants (db (serve_all requests w))) <> [] ->
       length (event_participants (db w'))
       = length (event_participants (db (serve_all requests w))))
      /\ forall r, r ∈ records_for e u (event_participants (db w')) ->
                   r !! "participation_type" = Some (dict_get data "type" PyNone))
  /\ (forall (e : Z) (u : pyval) (data : row),
      let before := serve_all requests w in
      let after := snd (participate_event e u data before) in
      let kind := dict_get data "type" PyNone in
      configured before = true -> outages before = [] ->
      py_in kind [PyStr "joined"; PyStr "interested"] = true ->
      filter (matches [Eq "id" (PyInt e)]) (destinations (db before)) <> [] ->
      code (fst (participate_event e u data before)) = 200
      /\ (records_for e u (event_participants (db before)) <> [] ->
          event_participants (db after)
          = (fun r => if matches [Eq "event_id" (PyInt e); Eq "user_id" u] r
                      then {["participation_type" := kind]} ∪ r else r)
              <$> event_participants (db before))
      /\ (records_for e u (event_participants (db before)) = [] ->
          event_participants (db after)
          = event_participants (db before)
            ++ [<["event_id" := PyInt e]>
                  (<["user_id" := u]> {["participation_type" := kind]})])
      /\ (forall r, r ∈ records_for e u (event_participants (db after)) ->
                    r !! "participation_type" = Some kind)
      /\ (length (records_for e u (event_participants (db after))) <= 1)%nat).
Proof.
  intros Hinv.
  assert (Hall : at_most_one_record (event_participants (db (serve_all requests w)))).
  { induction requests as [|q requests IH] using rev_ind; [exact Hinv|].
    rewrite serve_all_snoc. apply participate_event_keeps_one, IH. }
  assert (Hkind : forall e u data resp w',
             participate_event e u data (serve_all requests w) = (resp, w') ->
             code resp = 200 ->
             (records_for e u (event_participants (db (serve_all requests w))) <> [] ->
              length (event_participants (db w'))
              = length (event_participants (db (serve_all requests w))))
             /\ forall r, r ∈ records_for e u (event_participants (db w')) ->
                          r !! "participation_type"
                          = Some (dict_get data "type" PyNone)).
  { intros e u data resp w' Hp Hcode.
    destruct (participate_event_table _ _ _ _ _ _ Hp)
      as [[Hne _]|(_ & [(Hsome & ->)|(Hnone & ->)])]; [contradiction| |].
    - split; [intros _; apply length_fmap|].
      intros r Hr. rewrite records_for_update in Hr.
      apply list_elem_of_fmap in Hr as (r0 & -> & Hr0).
      apply list_elem_of_filter in Hr0 as [Hm _]. apply Is_true_true in Hm.
      rewrite Hm. rewrite lookup_union_l' by (rewrite lookup_singleton_eq; eauto).
      apply lookup_singleton_eq.
    - split; [intros Hsome; contradiction|].
      intros r Hr. unfold records_for in Hr, Hnone. rewrite filter_app, Hnone in Hr.
      cbn [app] in Hr. apply list_elem_of_filter in Hr as [_ Hr].
      apply list_elem_of_singleton in Hr as ->.
      rewrite !lookup_insert_ne by discriminate. apply lookup_singleton_eq. }
  split; [exact Hall|]. split; [exact Hkind|].
  intros e u data before after kind Hc Ho Hvalid Hev.
  destruct (participate_event_served e u data before Hc Ho Hvalid Hev) as [H200 Htab].
  fold after in Htab. fold kind in Htab.
  split; [exact H200|]. split; [|split; [|split]].
  - intros Hsome. rewrite Htab.
    destruct (records_for e u (event_participants (db before)));
      [contradiction|reflexivity].
  - intros Hnone. rewrite Htab, Hnone. reflexivity.
  - apply (Hkind e u data (fst (participate_event e u data before)) after);
      [apply surjective_pairing|exact H200].
  - apply (participate_event_keeps_one e u data before Hall).
Qed.

(** From an empty table, "joined" and then "interested" for the same
    event and user: the second request is answered 200 and rewrites the
    one record. *)
Lemma participation_records_unique_witness :
  code (fst (participate_event 1 (PyInt 2) {["type" := PyStr "interested"]}
               (serve_all [(1, PyInt 2, {["type" := PyStr "joined"]})]
                  (Sample.reliable (mkStore [Sample.at_ten] [] Sample.people)))))
  = 200
  /\ event_participants
       (db (snd (participate_event 1 (PyInt 2) {["type" := PyStr "interested"]}
                   (serve_all [(1, PyInt 2, {["type" := PyStr "joined"]})]
                      (Sample.reliable (mkStore [Sample.at_ten] [] Sample.people))))))
     = [Sample.participation 1 2 "interested"].
Proof.
  destruct (proj2 (proj2
              (participation_records_unique
                 [(1, PyInt 2, {["type" := PyStr "joined"]})]
                 (Sample.reliable (mkStore [Sample.at_ten] [] Sample.people))
                 ltac:(intros e u; cbn; lia)))
              1 (PyInt 2) {["type" := PyStr "interested"]}
              ltac:(reflexivity) ltac:(reflexivity) ltac:(reflexivity)
              ltac:(vm_compute; discriminate))
    as (H200 & Hrewrite & _).
  split; [exact H200|].
  rewrite Hrewrite by (vm_compute; discriminate). vm_compute. reflexivity.
Defined.

(** The table after those two requests: one record, of the second kind. *)
Lemma participation_overwritten :
  event_participants
    (db (serve_all [(1, PyInt 2, {["type" := PyStr "joined"]});
                    (1, PyInt 2, {["type" := PyStr "interested"]})]
                   (Sample.reliable (mkStore [Sample.at_ten] [] Sample.people))))
  = [Sample.participation 1 2 "interested"].
Proof. vm_compute. reflexivity. Qed.

(** ** C7: the second sweep *)

(** One turn of the loop when the store answers. *)
Lemma check_event_served now n e w :
  outages w = [] ->
  check_event now n e w
  = match evaluate now e with
    | Raise x => (Raise x, w)
    | Ok NoChange => (Ok n, w)
    | Ok TransitionToPast =>
        match e !! "id" with
        | None => (Raise (KeyError "id"), w)
        | Some id =>
            (Ok (match filter (matches [Eq "id" id]) (destinations (db w)) with
                 | [] => n
                 | _ => S n
                 end),
             mkWorld (configured w)
                     (with_rows Destinations (expire id (destinations (db w))) (db w))
                     [])
        end
    end.
Proof.
  intros Ho. unfold check_event, bind, lift, ret, getitem.
  destruct (evaluate now e) as [[|]|x]; try reflexivity.
  destruct (e !! "id") as [id|]; [|reflexivity].
  rewrite update_served by (rewrite Ho; reflexivity). rewrite Ho. cbn [rows_of tl].
  destruct (filter _ (destinations (db w))); reflexivity.
Qed.

Lemma expire_none rs : expire PyNone rs = rs.
Proof.
  unfold expire. induction rs as [|r rs IH]; [reflexivity|].
  rewrite fmap_cons, IH. f_equal.
  replace (matches [Eq "id" PyNone] r) with false; [reflexivity|].
  cbn. destruct (r !! "id") as [[| | |]|]; reflexivity.
Qed.

Lemma filter_id_none (rs : list row) : filter (matches [Eq "id" PyNone]) rs = [].
Proof.
  induction rs as [|r rs IH]; [reflexivity|].
  rewrite filter_cons_False; [exact IH|].
  cbn. destruct (r !! "id") as [[| | |]|]; cbn; auto.
Qed.

Lemma with_rows_same (s : Store) :
  with_rows Destinations (destinations s) s = s.
Proof. destruct s. reflexivity. Qed.

(** A turn for a settled event changes nothing. *)
Lemma check_event_settled now n e w :
  outages w = [] -> settled now e -> check_event now n e w = (Ok n, w).
Proof.
  intros Ho Hs. rewrite (check_event_served _ _ _ _ Ho).
  destruct Hs as [->|[-> ->]]; [reflexivity|].
  rewrite filter_id_none, expire_none, with_rows_same. destruct w. cbn in Ho.
  subst. reflexivity.
Qed.

Lemma for_each_settled now events n w :
  outages w = [] -> Forall (settled now) events ->
  for_each (check_event now) events n w = (Ok n, w).
Proof.
  intros Ho H. induction H as [|e events He _ IH]; [reflexivity|].
  cbn. unfold bind. rewrite (check_event_settled _ _ _ _ Ho He). exact IH.
Qed.

(** A row that was set to [past] is not fetched again. *)
Lemma active_past (r : row) : active ({["status" := PyStr "past"]} ∪ r) = false.
Proof.
  unfold active. cbn.
  rewrite lookup_union_l' by (rewrite lookup_singleton_eq; eauto).
  rewrite lookup_singleton_eq. reflexivity.
Qed.

Lemma project_sweep_id (r : row) : project sweep_columns r !! "id" = r !! "id".
Proof.
  unfold sweep_columns. rewrite lookup_project.
  rewrite bool_decide_eq_true_2; [reflexivity|left].
Qed.

(** While the first sweep runs without raising, every active row is
    settled or still to come. *)
Lemma for_each_settles now events :
  forall n w n' w',
    outages w = [] ->
    for_each (check_event now) events n w = (Ok n', w') ->
    (forall r, r ∈ destinations (db w) -> active r = true ->
               settled now (project sweep_columns r)
               \/ project sweep_columns r ∈ events) ->
    outages w' = [] /\ configured w' = configured w
    /\ forall r, r ∈ destinations (db w') -> active r = true ->
                 settled now (project sweep_columns r).
Proof.
  induction events as [|e events IH]; intros n w n' w' Ho Hrun Hinv.
  - injection Hrun as <- <-. split; [exact Ho|split; [reflexivity|]].
    intros r Hr Ha. destruct (Hinv r Hr Ha) as [H|H]; [exact H|inversion H].
  - cbn in Hrun. apply bind_ok in Hrun as (n1 & w1 & Hstep & Hrun).
    rewrite (check_event_served _ _ _ _ Ho) in Hstep.
    destruct (evaluate now e) as [[|]|x] eqn:He; [| |discriminate].
    + injection Hstep as <- <-. apply (IH _ _ _ _ Ho Hrun).
      intros r Hr Ha. destruct (Hinv r Hr Ha) as [H|H]; [left; exact H|].
      apply elem_of_cons in H as [->|H]; [left; left; exact He|right; exact H].
    + destruct (e !! "id") as [id|] eqn:Hid; [|discriminate].
      injection Hstep as <- <-.
      refine (IH _ _ _ _ _ Hrun _); [reflexivity|].
      cbn [db destinations with_rows]. intros r1 Hr1 Ha1.
      apply list_elem_of_fmap in Hr1 as (r & -> & Hr).
      destruct (matches [Eq "id" id] r) eqn:Hm;
        [rewrite active_past in Ha1; discriminate|].
      destruct (Hinv r Hr Ha1) as [H|H]; [left; exact H|].
      apply elem_of_cons in H as [Hre|H]; [left|right; exact H].
      right. rewrite Hre. split; [exact He|]. rewrite Hid. f_equal.
      rewrite <- Hre, project_sweep_id in Hid. cbn in Hm. rewrite Hid in Hm.
      rewrite andb_true_r in Hm. destruct id; try reflexivity;
        cbn [sql_eq] in Hm; rewrite py_eq_refl in Hm; discriminate.
Qed.

(** The job on a configured client that answers every call. *)
Lemma execute_served now w :
  configured w = true -> outages w = [] ->
  execute now w
  = match project sweep_columns <$> filter active (destinations (db w)) with
    | [] => (mkResult true NoActiveEvents None (Some 0%nat) None, w)
    | events =>
        match for_each (check_event now) events 0%nat w with
        | (Ok n, w') =>
            (mkResult true (UpdatedEvents n) (Some (length events)) (Some n) None, w')
        | (Raise e, w') =>
            (mkResult false (ErrorUpdating e) None None (Some e), w')
        end
    end.
Proof.
  intros Hc Ho. unfold execute, try_except, sweep, bind. rewrite Hc. cbn [negb].
  rewrite active_events_served by (rewrite Ho; reflexivity).
  replace (mkWorld (configured w) (db w) (tl (outages w))) with w
    by (destruct w; cbn in *; subst; reflexivity).
  change (filter (matches [Eq "status" (PyStr "active")]) (destinations (db w)))
    with (filter active (destinations (db w))).
  destruct (project sweep_columns <$> filter active (destinations (db w)))
    as [|e events]; [reflexivity|].
  destruct (for_each _ _ _ w) as [[n|x] w']; reflexivity.
Qed.

(** C7 as stated does not hold for every store: with a record of
    impossible date among the active events both runs stop at it and
    answer [success = False], without any [updated] count. *)
Lemma second_sweep_reports_no_count :
  ~ (forall (s : Store) (now : datetime),
        data_updated
          (fst (execute now (snd (execute now (Sample.reliable s)))))
        = Some 0%nat).
Proof.
  intros H. specialize (H Sample.bad_then_due (Sample.at_ 2024 6 1 12 0 0)).
  vm_compute in H. discriminate.
Qed.

(** C7, amended: when a sweep on a client that answers every call
    succeeds, a second sweep at the same instant succeeds too, reports
    [updated = 0] and leaves the store as the first one left it: the
    events the first run set to [past] are not fetched again, and the
    others were not due. *)
Theorem second_sweep_updates_nothing (s : Store) (now : datetime) :
  let first := execute now (Sample.reliable s) in
  let second := execute now (snd first) in
  success (fst first) = true ->
  success (fst second) = true
  /\ data_updated (fst second) = Some 0%nat
  /\ db (snd second) = db (snd first).
Proof.
  cbn zeta. rewrite (execute_served now (Sample.reliable s) eq_refl eq_refl).
  cbn [Sample.reliable db].
  set (events := project sweep_columns <$> filter active (destinations s)).
  assert (Hquiet : forall w, configured w = true -> outages w = [] ->
            (forall r, r ∈ destinations (db w) -> active r = true ->
                       settled now (project sweep_columns r)) ->
            success (fst (execute now w)) = true
            /\ data_updated (fst (execute now w)) = Some 0%nat
            /\ db (snd (execute now w)) = db w).
  { intros w Hc Ho Hs. rewrite (execute_served _ _ Hc Ho).
    destruct (project sweep_columns <$> filter active (destinations (db w)))
      as [|e es] eqn:Hev; [auto|]. cbv beta iota zeta.
    rewrite for_each_settled; [auto|exact Ho|]. rewrite <- Hev.
    apply Forall_forall. intros e' He'.
    apply list_elem_of_fmap in He' as (r & -> & Hr).
    apply list_elem_of_filter in Hr as [Ha Hr]. apply Is_true_true in Ha. auto. }
  destruct events as [|e es] eqn:Hev.
  - intros _. apply Hquiet; [reflexivity..|].
    intros r Hr Ha. exfalso.
    assert (project sweep_columns r ∈ events) as Hin.
    { apply list_elem_of_fmap. exists r. split; [reflexivity|].
      apply list_elem_of_filter. split; [apply Is_true_true, Ha|exact Hr]. }
    rewrite Hev in Hin. inversion Hin.
  - cbv beta iota zeta.
    destruct (for_each (check_event now) (e :: es) 0%nat _)
      as [[n|x] w1] eqn:Hrun; cbn [fst snd success]; [|discriminate].
    intros _.
    destruct (for_each_settles now (e :: es) 0%nat (Sample.reliable s) n w1
                (eq_refl : outages (Sample.reliable s) = []) Hrun)
      as (Ho & Hc & Hs).
    + intros r Hr Ha. right. rewrite <- Hev. apply list_elem_of_fmap.
      exists r. split; [reflexivity|].
      apply list_elem_of_filter. split; [apply Is_true_true, Ha|exact Hr].
    + apply Hquiet; assumption.
Qed.

Lemma second_sweep_updates_nothing_witness :
  success (fst (execute (Sample.at_ 2024 6 1 12 0 0)
                        (snd (execute (Sample.at_ 2024 6 1 12 0 0)
                                (Sample.reliable Sample.own_and_joined))))) = true
  /\ data_updated (fst (execute (Sample.at_ 2024 6 1 12 0 0)
                          (snd (execute (Sample.at_ 2024 6 1 12 0 0)
                                  (Sample.reliable Sample.own_and_joined)))))
     = Some 0%nat
  /\ db (snd (execute (Sample.at_ 2024 6 1 12 0 0)
                (snd (execute (Sample.at_ 2024 6 1 12 0 0)
                        (Sample.reliable Sample.own_and_joined)))))
     = db (snd (execute (Sample.at_ 2024 6 1 12 0 0)
                  (Sample.reliable Sample.own_and_joined))).
Proof.
  apply (second_sweep_updates_nothing Sample.own_and_joined
           (Sample.at_ 2024 6 1 12 0 0)).
  vm_compute. reflexivity.
Defined.

(** In that example the first run does update an event. *)
Lemma first_sweep_example :
  data_updated (fst (execute (Sample.at_ 2024 6 1 12 0 0)
                             (Sample.reliable Sample.own_and_joined)))
  = Some 1%nat.
Proof. vm_compute. reflexivity. Qed.

(** * Further properties of the code *)

(** ** The sweep only ever writes [past] *)

Lemma expired_from_trans (a b c : row) :
  expired_from a b -> expired_from b c -> expired_from a c.
Proof.
  unfold expired_from. intros [->| ->] [->| ->]; auto.
  right. rewrite (assoc_L (∪)), (idemp_L (∪)). reflexivity.
Qed.

Lemma expire_shape id rs : Forall2 expired_from rs (expire id rs).
Proof.
  unfold expire. induction rs as [|r rs IH]; [constructor|].
  rewrite fmap_cons. constructor; [|exact IH].
  destruct (matches [Eq "id" id] r); [right|left]; reflexivity.
Qed.

Lemma Forall2_expired_refl rs : Forall2 expired_from rs rs.
Proof. induction rs; constructor; [left; reflexivity|assumption]. Qed.

Lemma Forall2_expired_trans (a b c : list row) :
  Forall2 expired_from a b -> Forall2 expired_from b c -> Forall2 expired_from a c.
Proof.
  intros Hab. revert c. induction Hab as [|x y a b Hxy _ IH]; intros c Hbc.
  - inversion Hbc. constructor.
  - inversion Hbc as [|y' z b' c' Hyz Hrest]; subst. constructor.
    + exact (expired_from_trans _ _ _ Hxy Hyz).
    + apply IH, Hrest.
Qed.


Lemma swept_refl w : swept w w.
Proof. repeat split; apply Forall2_expired_refl. Qed.

Lemma swept_trans a b c : swept a b -> swept b c -> swept a c.
Proof.
  intros (H1 & H2 & H3 & H4) (K1 & K2 & K3 & K4).
  repeat split; try congruence. exact (Forall2_expired_trans _ _ _ H4 K4).
Qed.

Lemma check_event_swept now n e w r w' :
  check_event now n e w = (r, w') -> swept w w'.
Proof.
  unfold check_event, bind, lift, ret.
  destruct (evaluate now e) as [[|]|x]; try (intros [= _ <-]; apply swept_refl).
  destruct (getitem e "id") as [id|x]; [|intros [= _ <-]; apply swept_refl].
  unfold update, round_trip. destruct (hd false (outages w)).
  - intros [= _ <-]. repeat split. apply Forall2_expired_refl.
  - cbn. intros [= _ <-]. repeat split. cbn. apply expire_shape.
Qed.

Lemma for_each_swept now events :
  forall n w r w', for_each (check_event now) events n w = (r, w') -> swept w w'.
Proof.
  induction events as [|e events IH]; intros n w r w'; cbn.
  - intros [= _ <-]. apply swept_refl.
  - unfold bind. destruct (check_event now n e w) as [[n1|x] w1] eqn:Hstep.
    + intros H. exact (swept_trans _ _ _ (check_event_swept _ _ _ _ _ _ Hstep)
                                   (IH _ _ _ _ H)).
    + intros [= _ <-]. exact (check_event_swept _ _ _ _ _ _ Hstep).
Qed.

(** X1: whatever the store holds and whether or not calls fail, a sweep
    leaves the participations and the users alone and neither adds,
    removes nor reorders destinations: each row is as it was, or as it
    was with status [past]. *)
Theorem sweep_only_expires (now : datetime) (w : World) :
  event_participants (db (snd (execute now w))) = event_participants (db w)
  /\ users (db (snd (execute now w))) = users (db w)
  /\ Forall2 expired_from (destinations (db w))
                           (destinations (db (snd (execute now w)))).
Proof.
  enough (swept w (snd (execute now w))) as (_ & H1 & H2 & H3) by auto.
  unfold execute. destruct (configured w); [|apply swept_refl]. cbn [negb].
  unfold try_except, sweep, bind, active_events.
  destruct (select_run Destinations sweep_columns [Eq "status" (PyStr "active")] w)
    as (r & ->).
  set (w0 := mkWorld _ _ _).
  assert (H0 : swept w w0) by (repeat split; apply Forall2_expired_refl).
  destruct r as [[|e events]|x]; [exact H0| |exact H0].
  destruct (for_each (check_event now) (e :: events) 0%nat w0) as [[n|x] w1] eqn:Hrun;
    cbn [snd]; exact (swept_trans _ _ _ H0 (for_each_swept _ _ _ _ _ _ Hrun)).
Qed.

(** ** What the sweep counts *)

Lemma check_event_count now n e w n' w' :
  check_event now n e w = (Ok n', w') -> (n <= n' <= S n)%nat.
Proof.
  unfold check_event, bind, lift, ret.
  destruct (evaluate now e) as [[|]|x]; try discriminate.
  - intros [= <- _]. lia.
  - destruct (getitem e "id") as [id|x]; [|discriminate].
    destruct (update _ _ _ w) as [[[|r rs]|x] w1]; try discriminate;
      intros [= <- _]; lia.
Qed.

Lemma for_each_count now events :
  forall n w n' w',
    for_each (check_event now) events n w = (Ok n', w') ->
    (n <= n' <= n + length events)%nat.
Proof.
  induction events as [|e events IH]; intros n w n' w'; cbn.
  - intros [= <- _]. lia.
  - intros H. apply bind_ok in H as (n1 & w1 & Hstep & H).
    apply check_event_count in Hstep. apply IH in H. lia.
Qed.

(** X2: a sweep that reports [checked] reports the number of active
    destinations it found, and [updated] never exceeds it; a sweep that
    found none reports [updated = 0]. *)
Theorem sweep_counts (now : datetime) (w : World) :
  let report := fst (execute now w) in
  let found := length (filter active (destinations (db w))) in
  success report = true ->
  exists updated,
    data_updated report = Some updated
    /\ (updated <= found)%nat
    /\ (data_checked report = Some found
        \/ (data_checked report = None /\ found = 0%nat)).
Proof.
  cbn zeta. unfold execute. destruct (configured w); [|discriminate]. cbn [negb].
  unfold try_except, sweep, bind.
  destruct (hd false (outages w)) eqn:Ho.
  { unfold active_events, select, round_trip. rewrite Ho. discriminate. }
  rewrite (active_events_served _ Ho).
  change (filter (matches [Eq "status" (PyStr "active")]) (destinations (db w)))
    with (filter active (destinations (db w))).
  destruct (project sweep_columns <$> filter active (destinations (db w)))
    as [|e events] eqn:Hev.
  - intros _. exists 0%nat. apply fmap_nil_inv in Hev. rewrite Hev. cbn. auto with lia.
  - destruct (for_each _ _ _ _) as [[n|x] w1] eqn:Hrun; [|discriminate].
    intros _. exists n. cbn [fst data_updated data_checked].
    apply for_each_count in Hrun. rewrite <- Hev in Hrun |- *.
    rewrite length_fmap in Hrun |- *. auto with lia.
Qed.

Lemma sweep_counts_witness :
  exists updated,
    data_updated (fst (execute (Sample.at_ 2024 6 1 12 0 0)
                               (Sample.reliable Sample.own_and_joined)))
    = Some updated
    /\ (updated <= 2)%nat.
Proof.
  destruct (sweep_counts (Sample.at_ 2024 6 1 12 0 0)
              (Sample.reliable Sample.own_and_joined))
    as (u & H1 & H2 & _); [vm_compute; reflexivity|].
  exists u. split; [exact H1|exact H2].
Defined.

(** ** A successful sweep leaves nothing due *)

Lemma successful_sweep_settles now w :
  configured w = true -> outages w = [] ->
  success (fst (execute now w)) = true ->
  forall r, r ∈ destinations (db (snd (execute now w))) -> active r = true ->
            settled now (project sweep_columns r).
Proof.
  intros Hc Ho. rewrite (execute_served _ _ Hc Ho).
  destruct (project sweep_columns <$> filter active (destinations (db w)))
    as [|e es] eqn:Hev.
  - intros _ r Hr Ha. exfalso. apply fmap_nil_inv in Hev.
    assert (r ∈ filter active (destinations (db w))) as Hin
      by (apply list_elem_of_filter; split; [apply Is_true_true, Ha|exact Hr]).
    rewrite Hev in Hin. inversion Hin.
  - cbv beta iota zeta.
    destruct (for_each (check_event now) (e :: es) 0%nat w) as [[n|x] w1] eqn:Hrun;
      cbn [fst snd success]; [|discriminate].
    intros _. refine (proj2 (proj2 (for_each_settles now _ _ _ _ _ Ho Hrun _))).
    intros r Hr Ha. right. rewrite <- Hev. apply list_elem_of_fmap.
    exists r. split; [reflexivity|].
    apply list_elem_of_filter. split; [apply Is_true_true, Ha|exact Hr].
Qed.

Lemma settled_not_due now e i :
  settled now e -> evaluate now e = Ok TransitionToPast -> e !! "id" = Some i ->
  i = PyNone.
Proof. intros [H|[_ H]] He Hi; congruence. Qed.

(** X3: when a sweep on a client that answers every call succeeds, every
    destination that was active, due and filed under an id has status
    [past] afterwards, at the place it had in the table and with its other
    fields as they were. *)
Theorem sweep_expires_what_is_due
    (s : Store) (now : datetime) (k : nat) (r : row) (i : pyval) :
  success (fst (execute now (Sample.reliable s))) = true ->
  destinations s !! k = Some r ->
  active r = true ->
  evaluate now (project sweep_columns r) = Ok TransitionToPast ->
  r !! "id" = Some i -> i <> PyNone ->
  destinations (db (snd (execute now (Sample.reliable s)))) !! k
  = Some ({["status" := PyStr "past"]} ∪ r).
Proof.
  intros Hok Hk Ha Hdue Hi Hreal.
  destruct (sweep_only_expires now (Sample.reliable s)) as (_ & _ & Hshape).
  destruct (Forall2_lookup_l _ _ _ _ _ Hshape Hk) as (r' & Hk' & [->| ->]);
    [exfalso|exact Hk'].
  apply list_elem_of_lookup_2 in Hk'.
  pose proof (successful_sweep_settles now (Sample.reliable s) eq_refl eq_refl
                Hok r Hk' Ha) as Hs.
  apply Hreal. apply (settled_not_due now _ i Hs Hdue).
  rewrite project_sweep_id. exact Hi.
Qed.

Lemma sweep_expires_what_is_due_witness :
  destinations
    (db (snd (execute (Sample.at_ 2024 6 1 12 0 0)
                      (Sample.reliable Sample.own_and_joined)))) !! 0%nat
  = Some ({["status" := PyStr "past"]} ∪ Sample.at_ten).
Proof.
  apply (sweep_expires_what_is_due Sample.own_and_joined
           (Sample.at_ 2024 6 1 12 0 0) 0%nat Sample.at_ten (PyInt 1));
    try (vm_compute; reflexivity).
  discriminate.
Defined.

(** ** Timed events: one instant for the sweep and for cancellation *)











(** ** Cancelling *)

Lemma world_eta w : mkWorld (configured w) (db w) (outages w) = w.
Proof. destruct w. reflexivity. Qed.

(** X5: a cancellation is answered with 200 only if the first stored row
    with that id belongs to the requester, is not cancelled yet and is
    scheduled at [now] or later; then exactly the rows with that id get
    status [cancelled], and nothing else in the store changes. *)
Theorem cancel_success
    (destination_id : Z) (session_user_id : pyval) (now : datetime)
    (w w' : World) (resp : response) :
  cancel_destination destination_id session_user_id now w = (resp, w') ->
  code resp = 200 ->
  exists destination rest owner at_,
    filter (matches [Eq "id" (PyInt destination_id)]) (destinations (db w))
    = destination :: rest
    /\ destination !! "user_id" = Some owner
    /\ py_eq owner session_user_id = true
    /\ py_eq (dict_get destination "status" PyNone) (PyStr "cancelled") = false
    /\ scheduled_datetime destination = Ok at_
    /\ dt_lt at_ now = false
    /\ destinations (db w') = cancel_rows destination_id (destinations (db w))
    /\ event_participants (db w') = event_participants (db w)
    /\ users (db w') = users (db w).
Proof.
  unfold cancel_destination. destruct (configured w); [|intros [= <- _]; discriminate].
  cbn [negb]. unfold try_except, cancel, bind at 1.
  destruct (hd false (outages w)) eqn:Ho.
  { unfold select, round_trip. rewrite Ho. intros [= <- _]. discriminate. }
  rewrite (select_served _ _ _ _ Ho), project_all. cbn [rows_of].
  destruct (filter _ (destinations (db w))) as [|destination rest] eqn:Hf;
    [intros [= <- _]; discriminate|].
  unfold bind, lift, ret, getitem.
  destruct (destination !! "user_id") as [owner|] eqn:Hu;
    [|intros [= <- _]; discriminate].
  destruct (py_eq owner session_user_id) eqn:Ho'; cbn [negb];
    [|intros [= <- _]; discriminate].
  destruct (py_eq (dict_get destination "status" PyNone) (PyStr "cancelled")) eqn:Hs;
    [intros [= <- _]; discriminate|].
  destruct (scheduled_datetime destination) as [at_|e] eqn:Hat;
    [|intros [= <- _]; discriminate].
  destruct (dt_lt at_ now) eqn:Hlt; [intros [= <- _]; discriminate|].
  unfold update, round_trip. cbn [outages db configured].
  destruct (hd false (tl (outages w))); [intros [= <- _]; discriminate|].
  cbn. intros [= _ <-] _. exists destination, rest, owner, at_.
  repeat split; auto.
Qed.

Lemma cancel_success_witness :
  destinations
    (db (snd (cancel_destination 1 (PyInt 1) (Sample.at_ 2024 5 1 9 0 0)
                                 (Sample.reliable Sample.own_and_joined))))
  = cancel_rows 1 (destinations Sample.own_and_joined).
Proof.
  destruct (cancel_success 1 (PyInt 1) (Sample.at_ 2024 5 1 9 0 0)
              (Sample.reliable Sample.own_and_joined)
              (snd (cancel_destination 1 (PyInt 1) (Sample.at_ 2024 5 1 9 0 0)
                                       (Sample.reliable Sample.own_and_joined)))
              (fst (cancel_destination 1 (PyInt 1) (Sample.at_ 2024 5 1 9 0 0)
                                       (Sample.reliable Sample.own_and_joined))))
    as (d & rest & o & a & _ & _ & _ & _ & _ & _ & H & _).
  - vm_compute. reflexivity.
  - vm_compute. reflexivity.
  - exact H.
Defined.

(** X6: whoever is not the owner of the first stored row with that id is
    answered 403, whatever the status or the schedule of the row (even a
    schedule that cannot be read), and nothing is written. *)
Theorem cancel_by_other_user
    (destination_id : Z) (session_user_id owner : pyval) (now : datetime)
    (w : World) (destination : row) (rest : list row) :
  configured w = true ->
  hd false (outages w) = false ->
  filter (matches [Eq "id" (PyInt destination_id)]) (destinations (db w))
  = destination :: rest ->
  destination !! "user_id" = Some owner ->
  py_eq owner session_user_id = false ->
  fst (cancel_destination destination_id session_user_id now w)
  = mkResponse 403 (Error "Unauthorized")
  /\ db (snd (cancel_destination destination_id session_user_id now w)) = db w.
Proof.
  intros Hc Ho Hf Hu Hne.
  assert (cancel_destination destination_id session_user_id now w
          = (mkResponse 403 (Error "Unauthorized"),
             mkWorld true (db w) (tl (outages w)))) as ->; [|auto].
  unfold cancel_destination. rewrite Hc. cbn [negb].
  unfold try_except, cancel, bind at 1.
  rewrite (select_served _ _ _ _ Ho), project_all. cbn [rows_of]. rewrite Hf, Hc.
  unfold bind, lift, getitem. rewrite Hu, Hne. reflexivity.
Qed.

Lemma cancel_by_other_user_witness :
  fst (cancel_destination 1 (PyInt 2) (Sample.at_ 2024 5 1 9 0 0)
         (Sample.reliable (mkStore [Sample.bad_date] [] [])))
  = mkResponse 403 (Error "Unauthorized").
Proof.
  apply (cancel_by_other_user 1 (PyInt 2) (PyInt 1) (Sample.at_ 2024 5 1 9 0 0)
           (Sample.reliable (mkStore [Sample.bad_date] [] []))
           Sample.bad_date []); reflexivity.
Defined.

Lemma filter_fmap_matches (cs : list cond) (f : row -> row) (rs : list row) :
  (forall r, matches cs (f r) = matches cs r) ->
  filter (matches cs) (f <$> rs) = f <$> filter (matches cs) rs.
Proof.
  intros Hf. induction rs as [|r rs IH]; [reflexivity|]. rewrite fmap_cons.
  destruct (matches cs r) eqn:Hr.
  - rewrite !filter_cons_True by (apply Is_true_true; rewrite ?Hf; exact Hr).
    rewrite fmap_cons, IH. reflexivity.
  - rewrite !filter_cons_False by (rewrite Is_true_true, ?Hf; congruence).
    exact IH.
Qed.

Lemma matches_id_status (id : Z) (v : pyval) (r : row) :
  matches [Eq "id" (PyInt id)] ({["status" := v]} ∪ r)
  = matches [Eq "id" (PyInt id)] r.
Proof.
  cbn. rewrite lookup_union_r by (apply lookup_singleton_ne; discriminate).
  reflexivity.
Qed.

Lemma cancel_destination_world id u now w resp w' :
  cancel_destination id u now w = (resp, w') ->
  configured w' = configured w /\ (outages w = [] -> outages w' = []).
Proof.
  assert (Ht : outages w = [] -> tl (outages w) = []) by (intros ->; reflexivity).
  assert (Htt : outages w = [] -> tl (tl (outages w)) = []) by (intros ->; reflexivity).
  unfold cancel_destination. destruct (configured w) eqn:Hc;
    [|intros [= _ <-]; auto].
  cbn [negb]. unfold try_except, cancel, bind at 1.
  destruct (select_run Destinations All [Eq "id" (PyInt id)] w) as (r & ->).
  rewrite Hc.
  destruct r as [[|d rest]|e]; try (intros [= _ <-]; cbn; auto).
  unfold bind, lift, ret.
  destruct (getitem d "user_id") as [o|e]; [|intros [= _ <-]; cbn; auto].
  destruct (negb (py_eq o u)); [intros [= _ <-]; cbn; auto|].
  destruct (py_eq _ (PyStr "cancelled")); [intros [= _ <-]; cbn; auto|].
  destruct (scheduled_datetime d) as [a|e]; [|intros [= _ <-]; cbn; auto].
  destruct (dt_lt a now); [intros [= _ <-]; cbn; auto|].
  unfold update, round_trip. cbn [outages db configured].
  destruct (hd false (tl (outages w))); cbn; intros [= _ <-]; cbn; auto.
Qed.

(** X7: once a cancellation has gone through, a repeated cancellation of
    the same destination by the same user, at any later instant, is
    answered "already cancelled" and changes nothing. *)
Theorem cancel_twice
    (destination_id : Z) (session_user_id : pyval) (now later : datetime)
    (w w1 : World) (resp : response) :
  outages w = [] ->
  cancel_destination destination_id session_user_id now w = (resp, w1) ->
  code resp = 200 ->
  fst (cancel_destination destination_id session_user_id later w1)
  = mkResponse 400 (Error "Destination is already cancelled")
  /\ db (snd (cancel_destination destination_id session_user_id later w1)) = db w1.
Proof.
  intros Ho H1 Hcode.
  destruct (cancel_success _ _ _ _ _ _ H1 Hcode)
    as (d & rest & owner & a & Hf & Hu & Hown & _ & _ & _ & Hd & _).
  destruct (cancel_destination_world _ _ _ _ _ _ H1) as [Hc1 Ho1].
  assert (Hc : configured w = true).
  { unfold cancel_destination in H1. destruct (configured w); [reflexivity|].
    injection H1 as <- _. discriminate. }
  assert (cancel_destination destination_id session_user_id later w1
          = (mkResponse 400 (Error "Destination is already cancelled"),
             mkWorld true (db w1) [])) as ->; [|auto].
  unfold cancel_destination. rewrite Hc1, Hc. cbn [negb].
  unfold try_except, cancel, bind at 1.
  rewrite select_served by (rewrite (Ho1 Ho); reflexivity).
  rewrite project_all. cbn [rows_of]. rewrite Hd. unfold cancel_rows.
  rewrite filter_fmap_matches, Hf, fmap_cons.
  2:{ intros r. destruct (matches [Eq "id" (PyInt destination_id)] r) eqn:Hr;
        [rewrite matches_id_status|]; exact Hr. }
  assert (Hm : matches [Eq "id" (PyInt destination_id)] d = true).
  { assert (d ∈ filter (matches [Eq "id" (PyInt destination_id)])
                       (destinations (db w))) as Hin by (rewrite Hf; left).
    apply list_elem_of_filter in Hin as [Hin _]. apply Is_true_true, Hin. }
  rewrite Hm, Hc1, Hc, (Ho1 Ho). unfold bind, lift, getitem.
  rewrite lookup_union_r by (apply lookup_singleton_ne; discriminate).
  rewrite Hu, Hown. cbn [negb]. unfold dict_get.
  rewrite lookup_union_l' by (rewrite lookup_singleton_eq; eauto).
  rewrite lookup_singleton_eq. reflexivity.
Qed.

Lemma cancel_twice_witness :
  fst (cancel_destination 1 (PyInt 1) (Sample.at_ 2024 5 2 9 0 0)
         (snd (cancel_destination 1 (PyInt 1) (Sample.at_ 2024 5 1 9 0 0)
                 (Sample.reliable Sample.own_and_joined))))
  = mkResponse 400 (Error "Destination is already cancelled").
Proof.
  apply (cancel_twice 1 (PyInt 1) (Sample.at_ 2024 5 1 9 0 0)
           (Sample.at_ 2024 5 2 9 0 0) (Sample.reliable Sample.own_and_joined)
           (snd (cancel_destination 1 (PyInt 1) (Sample.at_ 2024 5 1 9 0 0)
                   (Sample.reliable Sample.own_and_joined)))
           (fst (cancel_destination 1 (PyInt 1) (Sample.at_ 2024 5 1 9 0 0)
                   (Sample.reliable Sample.own_and_joined)))).
  - reflexivity.
  - vm_compute. reflexivity.
  - vm_compute. reflexivity.
Defined.
